(** * Price ladder viewer: the [MarketData] replay engine

    A shallow embedding of the class [MarketData] of
    [price_ladder_viewer.py] and the properties of its price ladder.

    Conventions of the embedding.
    - Prices and the tick size are Python floats and numpy float64 values
      in the source.  They are embedded as [float], the binary64 numbers of
      the kernel: [+], [-], [*], [/] and the comparisons are the IEEE 754
      operations with rounding to nearest even, and a decimal literal
      denotes the nearest binary64 value, as in Python.
    - Volumes are numpy int64 values: the one sum the engine computes wraps
      around at 64 bits.
    - [time_value] (a pandas timedelta) is an integer number of time units.
    - Sizes and volumes are integers; display cells are strings, written with
      [str] and read back with [int] as the source does.
    - A Python exception is a value [Raise e]; every method returns a
      [result].  The object is passed explicitly: a method maps [self] to the
      value it returns, the new [self] and the lines it printed. *)

From Stdlib Require Import ZArith DecimalString DecimalZ.
From stdpp Require Import base tactics option list strings sorting.
From Stdlib Require Import Lia.
From Stdlib Require Import PrimFloat.
From Stdlib Require Uint63.

Local Open Scope Z_scope.

(** ** Exceptions *)

Inductive exn : Set :=
| KeyError      (* [df.loc[k, col]] with [k] not in the index *)
| IndexError    (* [a[i]] and [df.iloc[i, j]] out of range *)
| TypeError     (* subscripting [None] *)
| ValueError.   (* [int(s)] on a non-numeral, length mismatch on assignment *)

Inductive result (A : Type) : Type :=
| Ok (a : A)
| Raise (e : exn).
Arguments Ok {A} a.
Arguments Raise {A} e.

Definition bind {A B : Type} (m : result A) (k : A -> result B) : result B :=
  match m with
  | Ok a => k a
  | Raise e => Raise e
  end.

Declare Scope result_scope.
Delimit Scope result_scope with result.
Notation "x <~ m ;; k" := (bind m (fun x => k))
  (at level 100, m at next level, right associativity) : result_scope.
Local Open Scope result_scope.

(** [for i in <indices>: body], threading the mutated object. *)
Fixpoint for_each {S : Type} (body : nat -> S -> result S)
    (indices : list nat) (s : S) : result S :=
  match indices with
  | [] => Ok s
  | i :: rest => s' <~ body i s ;; for_each body rest s'
  end.

(** [for i in range(n): body] *)
Definition for_range {S : Type} (n : nat) (body : nat -> S -> result S)
    (s : S) : result S :=
  for_each body (seq 0 n) s.

(** ** Numbers *)

(** [float(n)] for an integer [n]: exact up to 2^53, rounded to nearest up
    to 2^63, which is as far as the engine's integers (a row count, a row
    index) go. *)
Definition float_of_Z (z : Z) : float :=
  match z with
  | Z0 => 0%float
  | Zpos _ => of_uint63 (Uint63.of_Z z)
  | Zneg p => (- of_uint63 (Uint63.of_Z (Zpos p)))%float
  end.

(** [np.floor(n / 2)] for an integer [n]: the quotient [n / 2] of two Python
    integers is an exact multiple of one half in binary64, so its floor is
    the floor of the integer division. *)
Definition floor_half (n : Z) : float := float_of_Z (n / 2)%Z.

(** [math.isclose(a, b)] with its default [rel_tol=1e-09, abs_tol=0.0], as
    CPython computes it. *)
Definition rel_tol : float := 1e-09.
Definition abs_tol : float := 0.

Definition isclose (a b : float) : bool :=
  if (a =? b)%float then true
  else if is_infinity a || is_infinity b then false
  else
    let diff := abs (b - a) in
    (diff <=? abs (rel_tol * b))%float
    || (diff <=? abs (rel_tol * a))%float
    || (diff <=? abs_tol)%float.

(** [np.linspace(start, stop, num)] with [endpoint=True]: the samples
    [arange(num) * step + start], the last one overwritten by [stop]. *)
Definition linspace (start stop : float) (num : nat) : list float :=
  let div := (Z.of_nat num - 1)%Z in
  let delta := (stop - start)%float in
  let y := (fun i => float_of_Z (Z.of_nat i)) <$> seq 0 num in
  let y :=
    if (0 <? div)%Z then
      let step := (delta / float_of_Z div)%float in
      if (step =? 0)%float
      then (fun v => (v / float_of_Z div * delta)%float) <$> y
      else (fun v => (v * step)%float) <$> y
    else (fun v => (v * delta)%float) <$> y in
  let y := (fun v => (v + start)%float) <$> y in
  if (1 <? Z.of_nat num)%Z then <[pred num := stop]> y else y.

(** The value of an int64 sum: the integer congruent to it modulo 2^64 in
    the range from -2^63 to 2^63 - 1. *)
Definition wrap_int64 (z : Z) : Z := ((z + 2 ^ 63) mod 2 ^ 64 - 2 ^ 63)%Z.

(** [str(n)] and [int(s)] on integers and cells. *)
Definition str (n : Z) : string := NilZero.string_of_int (Z.to_int n).

Definition int (s : string) : result Z :=
  match NilZero.int_of_string s with
  | Some d => Ok (Z.of_int d)
  | None => Raise ValueError
  end.

(** Truth value of a string: non-empty. *)
Definition truthy (s : string) : bool :=
  match s with
  | EmptyString => false
  | String _ _ => true
  end.

(** ** Data *)

(** The entries of [config] the engine reads.  [price_format] stands for
    [config['price_format'].format], the pattern applied to a price. *)
Record Config : Type := {
  row_count : nat;
  tick_size : float;
  price_format : float -> string
}.

(** A row of [quotes_df]. *)
Record Quote : Type := {
  q_time_value : Z;
  bid_price : float;
  bid_size : Z;
  ask_price : float;
  ask_size : Z
}.

(** A row of [trades_df]. *)
Record Trade : Type := {
  t_time_value : Z;
  price : float;
  volume : Z
}.

(** A row of [_price_ladder_df]: the five string cells, columns 0 to 4. *)
Record Row : Type := {
  col0 : string;
  col1 : string;
  col2 : string;
  col3 : string;
  col4 : string
}.

Abbreviation DataFrame := (list Row).

Definition blank_row : Row :=
  {| col0 := ""; col1 := ""; col2 := ""; col3 := ""; col4 := "" |}.

Definition get_col (j : nat) (r : Row) : string :=
  match j with
  | 0%nat => col0 r
  | 1%nat => col1 r
  | 2%nat => col2 r
  | 3%nat => col3 r
  | _ => col4 r
  end.

Definition set_col (j : nat) (v : string) (r : Row) : Row :=
  match j with
  | 0%nat => {| col0 := v; col1 := col1 r; col2 := col2 r; col3 := col3 r; col4 := col4 r |}
  | 1%nat => {| col0 := col0 r; col1 := v; col2 := col2 r; col3 := col3 r; col4 := col4 r |}
  | 2%nat => {| col0 := col0 r; col1 := col1 r; col2 := v; col3 := col3 r; col4 := col4 r |}
  | 3%nat => {| col0 := col0 r; col1 := col1 r; col2 := col2 r; col3 := v; col4 := col4 r |}
  | _ => {| col0 := col0 r; col1 := col1 r; col2 := col2 r; col3 := col3 r; col4 := v |}
  end.

(** [df.iloc[i, j]] *)
Definition iloc_get (df : DataFrame) (i j : nat) : result string :=
  match df !! i with
  | Some r => Ok (get_col j r)
  | None => Raise IndexError
  end.

(** [df.iloc[i, j] = v] *)
Definition iloc_set (df : DataFrame) (i j : nat) (v : string) : result DataFrame :=
  match df !! i with
  | Some r => Ok (<[i := set_col j v r]> df)
  | None => Raise IndexError
  end.

(** [df.loc[k, col]] on the default integer index: the row labelled [k]. *)
Definition loc {A : Type} (df : list A) (k : nat) : result A :=
  match df !! k with
  | Some r => Ok r
  | None => Raise KeyError
  end.

(** [df.iloc[k, ]]: the row at position [k]. *)
Definition iloc_row {A : Type} (df : list A) (k : nat) : result A :=
  match df !! k with
  | Some r => Ok r
  | None => Raise IndexError
  end.

(** [a[i]] on [self._price_ladder], which is [None] or an array. *)
Definition getitem (a : option (list float)) (i : nat) : result float :=
  match a with
  | None => Raise TypeError
  | Some l =>
    match l !! i with
    | Some x => Ok x
    | None => Raise IndexError
    end
  end.

(** [a[-1]] *)
Definition getitem_last (a : option (list float)) : result float :=
  match a with
  | None => Raise TypeError
  | Some l =>
    match last l with
    | Some x => Ok x
    | None => Raise IndexError
    end
  end.

(** What a method prints: the record it has just applied. *)
Inductive line : Type :=
| QuoteLine (q : Quote)
| TradeLine (t : Trade).

(** The attributes of a [MarketData] object. *)
Record MarketData : Type := {
  _config : Config;
  _price_ladder : option (list float);
  _price_ladder_df : DataFrame;
  _quotes_row : nat;
  _trades_row : nat;
  _quotes_df : list Quote;
  _trades_df : list Trade
}.

(** Outcome of a method call that did not raise. *)
Record outcome (A : Type) : Type := {
  returned : A;
  self' : MarketData;
  printed : list line
}.
Arguments returned {A} o.
Arguments self' {A} o.
Arguments printed {A} o.

Definition method (A : Type) : Type := MarketData -> result (outcome A).

(** ** The class [MarketData] *)

(** [__init__], after the two queries have delivered [quotes_df] and
    [trades_df]: no ladder yet, a frame of [row_count] rows of empty cells,
    both cursors at 0. *)
Definition __init__ (config : Config) (quotes_df : list Quote)
    (trades_df : list Trade) : MarketData :=
  {| _config := config;
     _price_ladder := None;
     _price_ladder_df := replicate (row_count config) blank_row;
     _quotes_row := 0;
     _trades_row := 0;
     _quotes_df := quotes_df;
     _trades_df := trades_df |}.

(** [cursor > len(df.index) - 1] *)
Definition past_end {A : Type} (cursor : nat) (df : list A) : bool :=
  (Z.of_nat (length df) - 1 <? Z.of_nat cursor)%Z.

(** The test of [_update_quote]: first quote, or ask above the top level by
    more than half a tick, or bid below the bottom level by more than half a
    tick.  [or] evaluates its operands left to right and stops at the first
    true one. *)
Definition outside_ladder (self : MarketData) : result bool :=
  if (_quotes_row self =? 0)%nat then Ok true
  else
    q <~ loc (_quotes_df self) (_quotes_row self) ;;
    top <~ getitem (_price_ladder self) 0 ;;
    if (top + 0.5 * tick_size (_config self) <? ask_price q)%float then Ok true
    else
      q <~ loc (_quotes_df self) (_quotes_row self) ;;
      bottom <~ getitem_last (_price_ladder self) ;;
      Ok (bid_price q <? bottom - 0.5 * tick_size (_config self))%float.

(** [max_price], the top level of a ladder reset on quote [q]. *)
Definition max_price (config : Config) (q : Quote) : float :=
  (ask_price q
   + tick_size config * floor_half (Z.of_nat (row_count config) - 1))%float.

(** The ladder of a reset: [np.linspace(max_price, max_price - (row_count -
    1) * tick_size, row_count)]. *)
Definition reset_ladder (config : Config) (q : Quote) : list float :=
  linspace (max_price config q)
    (max_price config q
     - float_of_Z (Z.of_nat (row_count config) - 1) * tick_size config)%float
    (row_count config).

(** [df.iloc[:, [0, 1, 3, 4]] = ''] *)
Definition clear_sizes_and_volumes (df : DataFrame) : DataFrame :=
  (fun r => set_col 4 "" (set_col 3 "" (set_col 1 "" (set_col 0 "" r)))) <$> df.

(** [df.iloc[:, 2] = labels]: the list must be as long as the column. *)
Definition set_labels (df : DataFrame) (labels : list string) : result DataFrame :=
  if (length labels =? length df)%nat
  then Ok (zip_with (set_col 2) labels df)
  else Raise ValueError.

(** The body of the reset branch of [_update_quote]: the new ladder and the
    frame with columns 0, 1, 3, 4 emptied and column 2 relabelled. *)
Definition reset_price_ladder (self : MarketData)
    : result (option (list float) * DataFrame) :=
  q <~ loc (_quotes_df self) (_quotes_row self) ;;
  let ladder := reset_ladder (_config self) q in
  let df := clear_sizes_and_volumes (_price_ladder_df self) in
  df <~ set_labels df (price_format (_config self) <$> ladder) ;;
  Ok (Some ladder, df).

(** One iteration of the loop of [_update_quote]. *)
Definition quote_row (self : MarketData) (ladder : option (list float))
    (i : nat) (df : DataFrame) : result DataFrame :=
  level <~ getitem ladder i ;;
  q <~ loc (_quotes_df self) (_quotes_row self) ;;
  df <~ (if isclose level (ask_price q)
         then q <~ loc (_quotes_df self) (_quotes_row self) ;;
              iloc_set df i 3 (str (ask_size q))
         else iloc_set df i 3 "") ;;
  level <~ getitem ladder i ;;
  q <~ loc (_quotes_df self) (_quotes_row self) ;;
  if isclose level (bid_price q)
  then q <~ loc (_quotes_df self) (_quotes_row self) ;;
       iloc_set df i 1 (str (bid_size q))
  else iloc_set df i 1 "".

Definition _update_quote : method unit := fun self =>
  reset <~ outside_ladder self ;;
  grid <~ (if reset : bool then reset_price_ladder self
           else Ok (_price_ladder self, _price_ladder_df self)) ;;
  let '(ladder, df) := grid in
  df <~ for_range (row_count (_config self)) (quote_row self ladder) df ;;
  q <~ iloc_row (_quotes_df self) (_quotes_row self) ;;
  Ok {| returned := tt;
        self' := {| _config := _config self;
                    _price_ladder := ladder;
                    _price_ladder_df := df;
                    _quotes_row := _quotes_row self + 1;
                    _trades_row := _trades_row self;
                    _quotes_df := _quotes_df self;
                    _trades_df := _trades_df self |};
        printed := [QuoteLine q] |}.

(** [volume += int(df.iloc[i, j])] when that cell is non-empty: [volume] is
    a numpy int64, and so is the sum. *)
Definition add_aggregate (df : DataFrame) (i j : nat) (volume : Z) : result Z :=
  cell <~ iloc_get df i j ;;
  if truthy cell
  then cell <~ iloc_get df i j ;;
       n <~ int cell ;;
       Ok (wrap_int64 (volume + n))
  else Ok volume.

(** One iteration of the loop of [_update_trade]. *)
Definition trade_row (self : MarketData) (i : nat) (df : DataFrame)
    : result DataFrame :=
  level <~ getitem (_price_ladder self) i ;;
  t <~ loc (_trades_df self) (_trades_row self) ;;
  if isclose level (price t) then
    t <~ loc (_trades_df self) (_trades_row self) ;;
    let volume := volume t in
    bid <~ iloc_get df i 1 ;;
    if truthy bid then
      volume <~ add_aggregate df i 0 volume ;;
      df <~ iloc_set df i 0 (str volume) ;;
      iloc_set df i 4 ""
    else
      ask <~ iloc_get df i 3 ;;
      if truthy ask then
        volume <~ add_aggregate df i 4 volume ;;
        df <~ iloc_set df i 0 "" ;;
        iloc_set df i 4 (str volume)
      else Ok df
  else
    df <~ iloc_set df i 0 "" ;;
    iloc_set df i 4 "".

Definition _update_trade : method unit := fun self =>
  df <~ (if (0 <? _quotes_row self)%nat
         then for_range (row_count (_config self)) (trade_row self)
                (_price_ladder_df self)
         else Ok (_price_ladder_df self)) ;;
  t <~ iloc_row (_trades_df self) (_trades_row self) ;;
  Ok {| returned := tt;
        self' := {| _config := _config self;
                    _price_ladder := _price_ladder self;
                    _price_ladder_df := df;
                    _quotes_row := _quotes_row self;
                    _trades_row := _trades_row self + 1;
                    _quotes_df := _quotes_df self;
                    _trades_df := _trades_df self |};
        printed := [TradeLine t] |}.

(** [get_next_price_ladder_df]: [None] at the end of the data, else the
    frame after the update of whichever record is next. *)
Definition get_next_price_ladder_df : method (option DataFrame) := fun self =>
  if past_end (_quotes_row self) (_quotes_df self)
     && past_end (_trades_row self) (_trades_df self)
  then Ok {| returned := None; self' := self; printed := [] |}
  else
    o <~ (if past_end (_quotes_row self) (_quotes_df self)
          then _update_trade self
          else if past_end (_trades_row self) (_trades_df self)
          then _update_quote self
          else
            q <~ loc (_quotes_df self) (_quotes_row self) ;;
            t <~ loc (_trades_df self) (_trades_row self) ;;
            if (q_time_value q <? t_time_value t)%Z
            then _update_quote self
            else _update_trade self) ;;
    Ok {| returned := Some (_price_ladder_df (self' o));
          self' := self' o;
          printed := printed o |}.

(** [get_price_ladder_time_elapsed]: the virtual time of the next update,
    counted from the first record. *)
Definition get_price_ladder_time_elapsed (self : MarketData) : result Z :=
  if past_end (_quotes_row self) (_quotes_df self)
     && past_end (_trades_row self) (_trades_df self)
  then Ok 0%Z
  else
    q0 <~ loc (_quotes_df self) 0 ;;
    t0 <~ loc (_trades_df self) 0 ;;
    let min_time_value := Z.min (q_time_value q0) (t_time_value t0) in
    q <~ loc (_quotes_df self) (_quotes_row self) ;;
    t <~ loc (_trades_df self) (_trades_row self) ;;
    let current_time_value := Z.min (q_time_value q) (t_time_value t) in
    Ok (current_time_value - min_time_value)%Z.

(** * Notions used in the statements *)

(** ** The loops, row by row *)

(** A loop body is _row-wise by [f]_ when iteration [i] succeeds exactly if
    row [i] exists and [f i] succeeds on it, and then replaces that row and
    nothing else. *)
Definition rowwise (f : nat -> Row -> result Row)
    (body : nat -> DataFrame -> result DataFrame) : Prop :=
  forall i df df',
    body i df = Ok df' <->
    exists r r', df !! i = Some r /\ f i r = Ok r' /\ df' = <[i := r']> df.

(** What an iteration of the loop of [_update_quote] makes of row [i]. *)
Definition quote_cells (self : MarketData) (ladder : option (list float))
    (i : nat) (r : Row) : result Row :=
  level <~ getitem ladder i ;;
  q <~ loc (_quotes_df self) (_quotes_row self) ;;
  Ok {| col0 := col0 r;
        col1 := if isclose level (bid_price q) then str (bid_size q) else "";
        col2 := col2 r;
        col3 := if isclose level (ask_price q) then str (ask_size q) else "";
        col4 := col4 r |}.

(** The aggregate a trade of [volume] leaves in a cell holding [cell]. *)
Definition aggregate (cell : string) (volume : Z) : result Z :=
  if truthy cell then n <~ int cell ;; Ok (wrap_int64 (volume + n))
  else Ok volume.

(** What an iteration of the loop of [_update_trade] makes of row [i]. *)
Definition trade_cells (self : MarketData) (i : nat) (r : Row) : result Row :=
  level <~ getitem (_price_ladder self) i ;;
  t <~ loc (_trades_df self) (_trades_row self) ;;
  if isclose level (price t) then
    if truthy (col1 r) then
      v <~ aggregate (col0 r) (volume t) ;;
      Ok {| col0 := str v; col1 := col1 r; col2 := col2 r; col3 := col3 r;
            col4 := "" |}
    else if truthy (col3 r) then
      v <~ aggregate (col4 r) (volume t) ;;
      Ok {| col0 := ""; col1 := col1 r; col2 := col2 r; col3 := col3 r;
            col4 := str v |}
    else Ok r
  else
    Ok {| col0 := ""; col1 := col1 r; col2 := col2 r; col3 := col3 r;
          col4 := "" |}.

(** The object after a trade that left the frame [df]. *)
Definition with_trade_applied (self : MarketData) (df : DataFrame) : MarketData :=
  {| _config := _config self;
     _price_ladder := _price_ladder self;
     _price_ladder_df := df;
     _quotes_row := _quotes_row self;
     _trades_row := _trades_row self + 1;
     _quotes_df := _quotes_df self;
     _trades_df := _trades_df self |}.

(** The object after a quote that left the grid [ladder], [df]. *)
Definition with_quote_applied (self : MarketData) (ladder : option (list float))
    (df : DataFrame) : MarketData :=
  {| _config := _config self;
     _price_ladder := ladder;
     _price_ladder_df := df;
     _quotes_row := _quotes_row self + 1;
     _trades_row := _trades_row self;
     _quotes_df := _quotes_df self;
     _trades_df := _trades_df self |}.

(** ** Replaying the data *)

(** [n] calls of [get_next_price_ladder_df] in a row: everything printed, and
    the object after the last call. *)
Fixpoint replay (n : nat) (self : MarketData) : result (list line * MarketData) :=
  match n with
  | O => Ok ([], self)
  | S n =>
    o <~ get_next_price_ladder_df self ;;
    rest <~ replay n (self' o) ;;
    Ok (printed o ++ fst rest, snd rest)
  end.

(** The object after [n] calls (the object itself if one of them raises). *)
Definition after (n : nat) (self : MarketData) : MarketData :=
  match replay n self with
  | Ok (_, self_n) => self_n
  | Raise _ => self
  end.

(** The states a driver can observe: those that calls of
    [get_next_price_ladder_df] lead to from [init]. *)
Inductive reachable (init : MarketData) : MarketData -> Prop :=
| reach_init : reachable init init
| reach_step (self : MarketData) (o : outcome (option DataFrame)) :
    reachable init self ->
    get_next_price_ladder_df self = Ok o ->
    reachable init (self' o).

(** The quotes, and the trades, among the printed records. *)
Definition quote_lines (evs : list line) : list Quote :=
  omap (fun e => match e with QuoteLine q => Some q | TradeLine _ => None end) evs.

Definition trade_lines (evs : list line) : list Trade :=
  omap (fun e => match e with TradeLine t => Some t | QuoteLine _ => None end) evs.

(** ** Which record is next *)

(** The next event is a trade: the quotes are used up, or the next trade is
    not later than the next quote. *)
Definition trade_is_next (self : MarketData) : Prop :=
  (_trades_row self < length (_trades_df self))%nat /\
  ((length (_quotes_df self) <= _quotes_row self)%nat \/
   exists q t,
     _quotes_df self !! _quotes_row self = Some q /\
     _trades_df self !! _trades_row self = Some t /\
     (t_time_value t <= q_time_value q)%Z).

(** The next event is a quote: the trades are used up, or the next quote is
    strictly earlier than the next trade. *)
Definition quote_is_next (self : MarketData) : Prop :=
  (_quotes_row self < length (_quotes_df self))%nat /\
  ((length (_trades_df self) <= _trades_row self)%nat \/
   exists q t,
     _quotes_df self !! _quotes_row self = Some q /\
     _trades_df self !! _trades_row self = Some t /\
     (q_time_value q < t_time_value t)%Z).

(** Both streams are used up. *)
Definition at_end (self : MarketData) : Prop :=
  (length (_quotes_df self) <= _quotes_row self)%nat /\
  (length (_trades_df self) <= _trades_row self)%nat.

(** No quote has been processed yet, or the ask of [q] is above the top
    level by more than half a tick, or its bid is below the bottom level by
    more than half a tick, each comparison as the source computes it. *)
Definition quote_outside (self : MarketData) (q : Quote) : Prop :=
  _quotes_row self = 0%nat
  \/ (exists top,
        getitem (_price_ladder self) 0 = Ok top /\
        (top + 0.5 * tick_size (_config self) <? ask_price q)%float = true)
  \/ (exists bottom,
        getitem_last (_price_ladder self) = Ok bottom /\
        (bid_price q <? bottom - 0.5 * tick_size (_config self))%float = true).


(** ** Order of the applied records *)

(** The time stamp of a printed record. *)
Definition time_of (e : line) : Z :=
  match e with
  | QuoteLine q => q_time_value q
  | TradeLine t => t_time_value t
  end.

(** [e1] may be applied before [e2]: it is not later, and a quote that comes
    before a trade is strictly earlier (at equal times the trade is first). *)
Definition applied_before (e1 e2 : line) : Prop :=
  match e1, e2 with
  | QuoteLine q, TradeLine t => (q_time_value q < t_time_value t)%Z
  | _, _ => (time_of e1 <= time_of e2)%Z
  end.

(** Order of time on quotes and on trades. *)
Definition quote_le (a b : Quote) : Prop := (q_time_value a <= q_time_value b)%Z.
Definition trade_le (a b : Trade) : Prop := (t_time_value a <= t_time_value b)%Z.

(** A record a later call can still apply: it sits at or after the cursor. *)
Definition pending (self : MarketData) (e : line) : Prop :=
  match e with
  | QuoteLine q =>
      exists k, (_quotes_row self <= k)%nat /\ _quotes_df self !! k = Some q
  | TradeLine t =>
      exists k, (_trades_row self <= k)%nat /\ _trades_df self !! k = Some t
  end.

(** ** Invariants of the object *)

(** A row shows at most one of the two aggregates. *)
Definition exclusive (r : Row) : Prop := col0 r = "" \/ col4 r = "".

(** A cell of column 0 or 4 is empty or a numeral that [str] wrote. *)
Definition numeral_or_empty (s : string) : Prop := s = "" \/ exists z, s = str z.

(** Both aggregate cells of a row are well-formed. *)
Definition aggregates_ok (r : Row) : Prop :=
  numeral_or_empty (col0 r) /\ numeral_or_empty (col4 r).

(** What holds of the object between two calls. *)
Record well_formed (self : MarketData) : Prop := {
  wf_rows : length (_price_ladder_df self) = row_count (_config self);
  wf_cells : Forall aggregates_ok (_price_ladder_df self);
  wf_ladder :
    (0 < _quotes_row self)%nat ->
    exists l, _price_ladder self = Some l /\ length l = row_count (_config self);
  wf_quotes : (_quotes_row self <= length (_quotes_df self))%nat;
  wf_trades : (_trades_row self <= length (_trades_df self))%nat
}.

(** ** Sample data *)

(** Five rows, a tick of 0.01. *)
Definition sample_config : Config :=
  {| row_count := 5; tick_size := 0.01; price_format := fun _ => "px" |}.

(** The first quote of the sample. *)
Definition first_quote : Quote :=
  {| q_time_value := 0; bid_price := 100; bid_size := 10;
     ask_price := 100.01; ask_size := 5 |}.

(** Bid 100.00 x 10, ask 100.01 x 5 at time 0; the bid steps down to 99.99
    at time 3. *)
Definition sample_quotes : list Quote :=
  [ {| q_time_value := 0; bid_price := 100; bid_size := 10;
       ask_price := 100.01; ask_size := 5 |};
    {| q_time_value := 3; bid_price := 99.99; bid_size := 10;
       ask_price := 100.01; ask_size := 5 |} ].

(** Three trades at 100.00, at times 1, 2 and 4. *)
Definition sample_trades : list Trade :=
  [ {| t_time_value := 1; price := 100; volume := 3 |};
    {| t_time_value := 2; price := 100; volume := 2 |};
    {| t_time_value := 4; price := 100; volume := 7 |} ].

(** The sample replay: quote, trade, trade, quote, trade. *)
Definition sample : MarketData :=
  __init__ sample_config sample_quotes sample_trades.

(** The last trade of the sample. *)
Definition third_trade : Trade :=
  {| t_time_value := 4; price := 100; volume := 7 |}.

(** After the sample's first four events the bid has left the level 100.00
    (row 3), where the two first trades had aggregated to 5. *)
Definition aggregate_row : Row :=
  {| col0 := "5"; col1 := ""; col2 := "px"; col3 := ""; col4 := "" |}.

(** A trade that comes before the only quote. *)
Definition trade_first : MarketData :=
  __init__ sample_config
    [ {| q_time_value := 5; bid_price := 100; bid_size := 10;
         ask_price := 100.01; ask_size := 5 |} ]
    [ {| t_time_value := 1; price := 100; volume := 3 |} ].

(** A quote and a trade that carry the same time. *)
Definition tie_quote : Quote :=
  {| q_time_value := 1; bid_price := 100; bid_size := 10;
     ask_price := 100.01; ask_size := 5 |}.

Definition tie_trade : Trade :=
  {| t_time_value := 1; price := 100; volume := 3 |}.

(** The replay of that tie. *)
Definition tie : MarketData := __init__ sample_config [tie_quote] [tie_trade].

(** Two quotes, the later one stored first. *)
Definition late_quote : Quote :=
  {| q_time_value := 5; bid_price := 100; bid_size := 10;
     ask_price := 100.01; ask_size := 5 |}.

Definition early_quote : Quote :=
  {| q_time_value := 3; bid_price := 100; bid_size := 4;
     ask_price := 100.01; ask_size := 6 |}.

(** A quote stream that is not in order of time: 5, then 3. *)
Definition out_of_order : MarketData :=
  __init__ sample_config [late_quote; early_quote] [].



(** Three rows, a tick of 0.1. *)
Definition coarse_config : Config :=
  {| row_count := 3; tick_size := 0.1; price_format := fun _ => "px" |}.

(** A quote at 0.9 / 1.0, then the bid falls to 0.85, half a tick under the
    bottom level of the first ladder. *)
Definition coarse : MarketData :=
  __init__ coarse_config
    [ {| q_time_value := 0; bid_price := 0.9; bid_size := 10;
         ask_price := 1; ask_size := 5 |};
      {| q_time_value := 1; bid_price := 0.85; bid_size := 10;
         ask_price := 1; ask_size := 5 |} ]
    [].

(** Four rows, a tick of 0.1, and a quote whose ask is 0. *)
Definition zero_ask : MarketData :=
  __init__
    {| row_count := 4; tick_size := 0.1; price_format := fun _ => "px" |}
    [ {| q_time_value := 0; bid_price := -0.1; bid_size := 10;
         ask_price := 0; ask_size := 5 |} ]
    [].

(** * The driver: [TableModel.update_logic] and [Worker.run] *)

(** The part of [update_logic] between its two calls into [MarketData]
    reads the wall clock, computes a delay from the elapsed time of the
    ladder and sleeps.  It does not touch the market data.  It is taken as a
    parameter [pace now elapsed], which returns or raises: the clock
    arithmetic and the sleep are left open, the order of the calls and the
    propagation of exceptions are those of the source. *)
Definition pacing : Type := Z -> Z -> result unit.

Module TableModel.

(** The attributes of a [TableModel] that [update_logic] uses.  The frame
    is [None] or the frame the engine returned. *)
Record t : Type := {
  _market_data : MarketData;
  _price_ladder_df : option DataFrame
}.

Definition __init__ (market_data : MarketData) : t :=
  {| _market_data := market_data; _price_ladder_df := None |}.

(** [update_logic]: ask the engine for the time of the next update, pace,
    step the engine and keep the frame; the value returned tells whether
    there was a frame. *)
Definition update_logic (pace : pacing) (now : Z) (self : t) : result (bool * t) :=
  price_ladder_time_elapsed <~ get_price_ladder_time_elapsed (_market_data self) ;;
  _ <~ pace now price_ladder_time_elapsed ;;
  o <~ get_next_price_ladder_df (_market_data self) ;;
  Ok (match returned o with Some _ => true | None => false end,
      {| _market_data := self' o; _price_ladder_df := returned o |}).

End TableModel.

Module Worker.

(** [run]: [while self._update_func(): self.update_signal.emit(None)], one
    clock reading per call.  The result is [true] when the loop has ended
    because [update_logic] returned [False], and [false] when the readings
    are used up with the loop still running. *)
Fixpoint run (pace : pacing) (clock : list Z) (model : TableModel.t)
    : result (bool * TableModel.t) :=
  match clock with
  | [] => Ok (false, model)
  | now :: later =>
    step <~ TableModel.update_logic pace now model ;;
    if fst step then run pace later (snd step) else Ok (true, snd step)
  end.

End Worker.

(** A pacing that never raises. *)
Definition no_wait : pacing := fun _ _ => Ok tt.

(** * Lemmas *)

(** ** The error monad and the loops *)

Lemma bind_Ok {A B : Type} (m : result A) (k : A -> result B) (b : B) :
  bind m k = Ok b <-> exists a, m = Ok a /\ k a = Ok b.
Proof.
  destruct m as [a|e]; simpl; split.
  - intros H. exists a. split; [reflexivity | exact H].
  - intros (a' & Ha & Hk). injection Ha as ->. exact Hk.
  - discriminate.
  - intros (a' & Ha & _). discriminate.
Qed.

(** Splits every successful [bind] among the hypotheses. *)
Ltac inv_bind :=
  repeat match goal with
  | H : bind _ _ = Ok _ |- _ =>
      let a := fresh "a" in
      let Ha := fresh "Ha" in
      apply bind_Ok in H; destruct H as (a & Ha & H)
  | H : Ok _ = Ok _ |- _ => injection H as H
  | H : Raise _ = Ok _ |- _ => discriminate H
  end.

Lemma loc_Ok {A : Type} (df : list A) (k : nat) (r : A) :
  loc df k = Ok r <-> df !! k = Some r.
Proof. unfold loc. destruct (df !! k); split; congruence. Qed.

Lemma iloc_row_Ok {A : Type} (df : list A) (k : nat) (r : A) :
  iloc_row df k = Ok r <-> df !! k = Some r.
Proof. unfold iloc_row. destruct (df !! k); split; congruence. Qed.

Lemma past_end_false {A : Type} (cursor : nat) (df : list A) :
  past_end cursor df = false <-> (cursor < length df)%nat.
Proof. unfold past_end. rewrite Z.ltb_ge. lia. Qed.

Lemma past_end_true {A : Type} (cursor : nat) (df : list A) :
  past_end cursor df = true <-> (length df <= cursor)%nat.
Proof. unfold past_end. rewrite Z.ltb_lt. lia. Qed.

Section Rowwise.
Variable f : nat -> Row -> result Row.
Variable body : nat -> DataFrame -> result DataFrame.
Hypothesis Hbody : rowwise f body.

Lemma for_each_rowwise (indices : list nat) (df df' : DataFrame) :
  NoDup indices ->
  for_each body indices df = Ok df' ->
  length df' = length df /\
  forall j,
    (j ∈ indices ->
     exists r r', df !! j = Some r /\ f j r = Ok r' /\ df' !! j = Some r') /\
    (j ∉ indices -> df' !! j = df !! j).
Proof.
  intros Hnd. revert df. induction Hnd as [|i rest Hi Hnd IH]; intros df H.
  - simpl in H. injection H as <-. split; [reflexivity|].
    intros j. split; [intros Hj; inversion Hj | reflexivity].
  - simpl in H. inv_bind.
    apply Hbody in Ha as (r & r' & Hr & Hf & ->).
    apply IH in H as [Hlen Hrows].
    rewrite length_insert in Hlen. split; [exact Hlen|].
    intros j. destruct (Hrows j) as [Hin Hout]. split.
    + intros Hj. apply elem_of_cons in Hj as [->|Hj].
      * exists r, r'. split; [exact Hr|]. split; [exact Hf|].
        destruct (Hrows i) as [_ Hout']. rewrite (Hout' Hi).
        apply list_lookup_insert_eq. eapply lookup_lt_Some, Hr.
      * destruct (Hin Hj) as (s & s' & Hs & Hfs & Hs').
        assert (i <> j) by (intros ->; contradiction).
        rewrite list_lookup_insert_ne in Hs by assumption.
        eauto.
    + intros Hj. apply not_elem_of_cons in Hj as [Hne Hj].
      rewrite (Hout Hj). apply list_lookup_insert_ne. congruence.
Qed.

Lemma for_each_rowwise_total (indices : list nat) (df : DataFrame) :
  NoDup indices ->
  (forall j, j ∈ indices -> exists r r', df !! j = Some r /\ f j r = Ok r') ->
  exists df', for_each body indices df = Ok df'.
Proof.
  intros Hnd. revert df. induction Hnd as [|i rest Hi Hnd IH]; intros df H.
  - exists df. reflexivity.
  - destruct (H i) as (r & r' & Hr & Hf); [left|].
    assert (Hb : body i df = Ok (<[i := r']> df)) by (apply Hbody; eauto).
    destruct (IH (<[i := r']> df)) as (df' & Hdf').
    + intros j Hj. assert (i <> j) by (intros ->; contradiction).
      rewrite list_lookup_insert_ne by assumption.
      apply H. right. exact Hj.
    + exists df'. simpl. rewrite Hb. exact Hdf'.
Qed.

(** The loop over [range(n)]: rows below [n] are rewritten by [f], the
    others are kept. *)
Lemma for_range_rowwise (n : nat) (df df' : DataFrame) :
  for_range n body df = Ok df' ->
  length df' = length df /\
  forall j,
    ((j < n)%nat ->
     exists r r', df !! j = Some r /\ f j r = Ok r' /\ df' !! j = Some r') /\
    ((n <= j)%nat -> df' !! j = df !! j).
Proof.
  intros H. apply for_each_rowwise in H as [Hlen Hrows]; [|apply NoDup_seq].
  split; [exact Hlen|]. intros j. destruct (Hrows j) as [Hin Hout]. split.
  - intros Hj. apply Hin, elem_of_seq. lia.
  - intros Hj. apply Hout. rewrite elem_of_seq. lia.
Qed.

Lemma for_range_rowwise_total (n : nat) (df : DataFrame) :
  (forall j, (j < n)%nat -> exists r r', df !! j = Some r /\ f j r = Ok r') ->
  exists df', for_range n body df = Ok df'.
Proof.
  intros H. apply for_each_rowwise_total; [apply NoDup_seq|].
  intros j Hj. apply H. apply elem_of_seq in Hj. lia.
Qed.
End Rowwise.

(** ** The two loops, row by row *)

Lemma iloc_get_lookup (df : DataFrame) (i j : nat) (r : Row) :
  df !! i = Some r -> iloc_get df i j = Ok (get_col j r).
Proof. intros H. unfold iloc_get. rewrite H. reflexivity. Qed.

Lemma iloc_set_lookup (df : DataFrame) (i j : nat) (v : string) (r : Row) :
  df !! i = Some r -> iloc_set df i j v = Ok (<[i := set_col j v r]> df).
Proof. intros H. unfold iloc_set. rewrite H. reflexivity. Qed.

Lemma iloc_get_None (df : DataFrame) (i j : nat) :
  df !! i = None -> iloc_get df i j = Raise IndexError.
Proof. intros H. unfold iloc_get. rewrite H. reflexivity. Qed.

Lemma iloc_set_None (df : DataFrame) (i j : nat) (v : string) :
  df !! i = None -> iloc_set df i j v = Raise IndexError.
Proof. intros H. unfold iloc_set. rewrite H. reflexivity. Qed.

Lemma lookup_insert_here (df : DataFrame) (i : nat) (r r' : Row) :
  df !! i = Some r -> <[i := r']> df !! i = Some r'.
Proof. intros H. apply list_lookup_insert_eq. eapply lookup_lt_Some, H. Qed.

Lemma insert_same (df : DataFrame) (i : nat) (r : Row) :
  df !! i = Some r -> <[i := r]> df = df.
Proof. apply list_insert_id. Qed.

(** An iteration that fails on a missing row, and otherwise succeeds with
    the row [f] computes, is row-wise by [f]. *)
Lemma rowwise_intro (f : nat -> Row -> result Row)
    (body : nat -> DataFrame -> result DataFrame) :
  (forall i df, df !! i = None -> exists e, body i df = Raise e) ->
  (forall i df r, df !! i = Some r ->
     match f i r with
     | Ok r' => body i df = Ok (<[i := r']> df)
     | Raise _ => exists e, body i df = Raise e
     end) ->
  rowwise f body.
Proof.
  intros Hnone Hsome i df df'. destruct (df !! i) as [r|] eqn:Hr.
  - specialize (Hsome i df r Hr). split.
    + intros H. exists r. destruct (f i r) as [r'|e].
      * exists r'. rewrite Hsome in H. injection H as <-. auto.
      * destruct Hsome as [e' He']. congruence.
    + intros (s & s' & Hs & Hf & ->). injection Hs as <-.
      rewrite Hf in Hsome. exact Hsome.
  - split.
    + intros H. destruct (Hnone i df Hr) as [e He]. congruence.
    + intros (s & s' & Hs & _). discriminate.
Qed.

Lemma quote_row_rowwise (self : MarketData) (ladder : option (list float)) :
  rowwise (quote_cells self ladder) (quote_row self ladder).
Proof.
  apply rowwise_intro.
  - intros i df Hr. unfold quote_row.
    destruct (getitem ladder i) as [level|e]; simpl; [|eauto].
    destruct (loc (_quotes_df self) (_quotes_row self)) as [q|e]; simpl; [|eauto].
    destruct (isclose level (ask_price q)); simpl;
      rewrite iloc_set_None by assumption; simpl; eauto.
  - intros i df r Hr. unfold quote_cells, quote_row.
    destruct (getitem ladder i) as [level|e]; simpl; [|eauto].
    destruct (loc (_quotes_df self) (_quotes_row self)) as [q|e]; simpl; [|eauto].
    destruct (isclose level (ask_price q)), (isclose level (bid_price q)); simpl;
      rewrite (iloc_set_lookup _ _ _ _ _ Hr); simpl;
      rewrite (iloc_set_lookup _ _ _ _ _ (lookup_insert_here _ _ _ _ Hr)); simpl;
      rewrite list_insert_insert_eq; reflexivity.
Qed.

Lemma add_aggregate_lookup (df : DataFrame) (i j : nat) (r : Row) (volume : Z) :
  df !! i = Some r ->
  add_aggregate df i j volume = aggregate (get_col j r) volume.
Proof.
  intros Hr. unfold add_aggregate, aggregate.
  rewrite (iloc_get_lookup _ _ _ _ Hr). cbn [bind].
  destruct (truthy (get_col j r)); reflexivity.
Qed.

Lemma trade_row_rowwise (self : MarketData) :
  rowwise (trade_cells self) (trade_row self).
Proof.
  apply rowwise_intro.
  - intros i df Hr. unfold trade_row.
    destruct (getitem (_price_ladder self) i) as [level|e]; simpl; [|eauto].
    destruct (loc (_trades_df self) (_trades_row self)) as [t|e]; simpl; [|eauto].
    destruct (isclose level (price t)); simpl.
    + rewrite iloc_get_None by assumption. simpl. eauto.
    + rewrite iloc_set_None by assumption. simpl. eauto.
  - intros i df r Hr. unfold trade_cells, trade_row.
    destruct (getitem (_price_ladder self) i) as [level|e]; simpl; [|eauto].
    destruct (loc (_trades_df self) (_trades_row self)) as [t|e]; simpl; [|eauto].
    destruct (isclose level (price t)); simpl.
    + rewrite (iloc_get_lookup _ _ _ _ Hr). simpl.
      destruct (truthy (col1 r)); simpl.
      * rewrite (add_aggregate_lookup _ _ _ _ _ Hr). simpl.
        destruct (aggregate (col0 r) (volume t)) as [v|e]; simpl; [|eauto].
        rewrite (iloc_set_lookup _ _ _ _ _ Hr); simpl.
        rewrite (iloc_set_lookup _ _ _ _ _ (lookup_insert_here _ _ _ _ Hr)); simpl.
        rewrite list_insert_insert_eq. reflexivity.
      * rewrite (iloc_get_lookup _ _ _ _ Hr). simpl.
        destruct (truthy (col3 r)); simpl.
        -- rewrite (add_aggregate_lookup _ _ _ _ _ Hr). simpl.
           destruct (aggregate (col4 r) (volume t)) as [v|e]; simpl; [|eauto].
           rewrite (iloc_set_lookup _ _ _ _ _ Hr); simpl.
           rewrite (iloc_set_lookup _ _ _ _ _ (lookup_insert_here _ _ _ _ Hr)); simpl.
           rewrite list_insert_insert_eq. reflexivity.
        -- rewrite (insert_same _ _ _ Hr). reflexivity.
    + rewrite (iloc_set_lookup _ _ _ _ _ Hr); simpl.
      rewrite (iloc_set_lookup _ _ _ _ _ (lookup_insert_here _ _ _ _ Hr)); simpl.
      rewrite list_insert_insert_eq. reflexivity.
Qed.

(** ** Shape of the two updates *)

Lemma update_trade_inv (self : MarketData) (o : outcome unit) :
  _update_trade self = Ok o ->
  exists df t,
    (if (0 <? _quotes_row self)%nat
     then for_range (row_count (_config self)) (trade_row self)
            (_price_ladder_df self) = Ok df
     else df = _price_ladder_df self) /\
    _trades_df self !! _trades_row self = Some t /\
    o = {| returned := tt; self' := with_trade_applied self df;
           printed := [TradeLine t] |}.
Proof.
  unfold _update_trade. intros H. inv_bind.
  apply iloc_row_Ok in Ha0. exists a, a0. split; [|split].
  - destruct (0 <? _quotes_row self)%nat; [exact Ha | congruence].
  - exact Ha0.
  - symmetry. exact H.
Qed.

Lemma update_quote_inv (self : MarketData) (o : outcome unit) :
  _update_quote self = Ok o ->
  exists (reset : bool) ladder df0 df q,
    outside_ladder self = Ok reset /\
    (if reset then reset_price_ladder self = Ok (ladder, df0)
     else ladder = _price_ladder self /\ df0 = _price_ladder_df self) /\
    for_range (row_count (_config self)) (quote_row self ladder) df0 = Ok df /\
    _quotes_df self !! _quotes_row self = Some q /\
    o = {| returned := tt; self' := with_quote_applied self ladder df;
           printed := [QuoteLine q] |}.
Proof.
  unfold _update_quote. intros H. inv_bind.
  destruct a0 as [ladder df0]. inv_bind.
  apply iloc_row_Ok in Ha2.
  exists a, ladder, df0, a0, a1. repeat split; try assumption.
  - destruct a; [exact Ha0|]. injection Ha0 as <- <-. split; reflexivity.
  - symmetry. exact H.
Qed.

(** The rows a trade leaves: each is the row [trade_cells] computes, or the
    old one beyond [row_count] and before any quote. *)
Lemma update_trade_rows (self : MarketData) (o : outcome unit) :
  _update_trade self = Ok o ->
  length (_price_ladder_df (self' o)) = length (_price_ladder_df self) /\
  forall i r,
    _price_ladder_df self !! i = Some r ->
    exists r',
      _price_ladder_df (self' o) !! i = Some r' /\
      (r' = r \/ trade_cells self i r = Ok r').
Proof.
  intros H. apply update_trade_inv in H as (df & t & Hdf & Ht & ->). simpl.
  destruct (0 <? _quotes_row self)%nat.
  - apply (for_range_rowwise _ _ (trade_row_rowwise self)) in Hdf as [Hlen Hrows].
    split; [exact Hlen|]. intros i r Hr.
    destruct (Hrows i) as [Hin Hout].
    destruct (Nat.lt_ge_cases i (row_count (_config self))) as [Hi|Hi].
    + destruct (Hin Hi) as (s & s' & Hs & Hf & Hs').
      exists s'. split; [exact Hs'|]. right. congruence.
    + exists r. split; [rewrite (Hout Hi); exact Hr | left; reflexivity].
  - subst df. split; [reflexivity|]. intros i r Hr. exists r. auto.
Qed.

Lemma trade_cells_frame (self : MarketData) (i : nat) (r r' : Row) :
  trade_cells self i r = Ok r' ->
  col1 r' = col1 r /\ col2 r' = col2 r /\ col3 r' = col3 r.
Proof.
  unfold trade_cells. intros H. inv_bind.
  destruct (isclose a (price a0)).
  - destruct (truthy (col1 r)); [inv_bind; subst r'; simpl; auto|].
    destruct (truthy (col3 r)); inv_bind; subst r'; simpl; auto.
  - inv_bind. subst r'. simpl. auto.
Qed.

Lemma quote_cells_frame (self : MarketData) (ladder : option (list float))
    (i : nat) (r r' : Row) :
  quote_cells self ladder i r = Ok r' ->
  col0 r' = col0 r /\ col2 r' = col2 r /\ col4 r' = col4 r.
Proof.
  unfold quote_cells. intros H. inv_bind. subst r'. simpl. auto.
Qed.

(** ** Reachability *)

Lemma replay_reachable_from (init : MarketData) (n : nat) :
  forall self evs self_n,
    reachable init self ->
    replay n self = Ok (evs, self_n) ->
    reachable init self_n.
Proof.
  induction n as [|n IH]; intros self evs self_n Hreach H; simpl in H.
  - congruence.
  - inv_bind. destruct a0 as [evs' s']. simpl in *. subst.
    eapply IH; [|exact Ha0]. eapply reach_step; eassumption.
Qed.

Lemma replay_reachable (init : MarketData) (n : nat) (evs : list line)
    (self_n : MarketData) :
  replay n init = Ok (evs, self_n) -> reachable init self_n.
Proof. apply replay_reachable_from, reach_init. Qed.

Lemma after_reachable (init : MarketData) (n : nat) : reachable init (after n init).
Proof.
  unfold after. destruct (replay n init) as [[evs self_n]|e] eqn:H.
  - eapply replay_reachable, H.
  - apply reach_init.
Qed.

(** ** Dispatch *)

Lemma next_cases (self : MarketData) :
  at_end self \/ trade_is_next self \/ quote_is_next self.
Proof.
  unfold at_end, trade_is_next, quote_is_next.
  destruct (Nat.lt_ge_cases (_quotes_row self) (length (_quotes_df self))) as [Hq|Hq];
  destruct (Nat.lt_ge_cases (_trades_row self) (length (_trades_df self))) as [Ht|Ht];
    try (left; split; assumption);
    try (right; left; split; [assumption | left; assumption]);
    try (right; right; split; [assumption | left; assumption]).
  destruct (lookup_lt_is_Some_2 _ _ Hq) as [q Hq'].
  destruct (lookup_lt_is_Some_2 _ _ Ht) as [t Ht'].
  destruct (Z.lt_ge_cases (q_time_value q) (t_time_value t)).
  - right; right. split; [assumption|]. right. eauto.
  - right; left. split; [assumption|]. right. eauto.
Qed.

Lemma get_next_at_end (self : MarketData) :
  at_end self ->
  get_next_price_ladder_df self =
  Ok {| returned := None; self' := self; printed := [] |}.
Proof.
  intros [Hq Ht]. unfold get_next_price_ladder_df.
  apply past_end_true in Hq, Ht. rewrite Hq, Ht. reflexivity.
Qed.

Lemma get_next_trade (self : MarketData) :
  trade_is_next self ->
  get_next_price_ladder_df self =
  (o <~ _update_trade self ;;
   Ok {| returned := Some (_price_ladder_df (self' o)); self' := self' o;
         printed := printed o |}).
Proof.
  intros [Ht Hq]. unfold get_next_price_ladder_df.
  apply past_end_false in Ht. rewrite Ht, andb_false_r.
  destruct Hq as [Hq|(q & t & Hq & Ht' & Hle)].
  - apply past_end_true in Hq. rewrite Hq. reflexivity.
  - assert (Hq' : past_end (_quotes_row self) (_quotes_df self) = false)
      by (apply past_end_false; eapply lookup_lt_Some, Hq).
    rewrite Hq'. apply loc_Ok in Hq, Ht'. rewrite Hq, Ht'. simpl.
    apply Z.ltb_ge in Hle. rewrite Hle. reflexivity.
Qed.

Lemma get_next_quote (self : MarketData) :
  quote_is_next self ->
  get_next_price_ladder_df self =
  (o <~ _update_quote self ;;
   Ok {| returned := Some (_price_ladder_df (self' o)); self' := self' o;
         printed := printed o |}).
Proof.
  intros [Hq Ht]. unfold get_next_price_ladder_df.
  apply past_end_false in Hq. rewrite Hq. simpl.
  destruct Ht as [Ht|(q & t & Hq' & Ht & Hlt)].
  - apply past_end_true in Ht. rewrite Ht. reflexivity.
  - assert (Ht' : past_end (_trades_row self) (_trades_df self) = false)
      by (apply past_end_false; eapply lookup_lt_Some, Ht).
    rewrite Ht'. apply loc_Ok in Hq', Ht. rewrite Hq', Ht. simpl.
    apply Z.ltb_lt in Hlt. rewrite Hlt. reflexivity.
Qed.

(** The three ways a call can succeed. *)
Lemma get_next_inv (self : MarketData) (o : outcome (option DataFrame)) :
  get_next_price_ladder_df self = Ok o ->
  (at_end self /\ o = {| returned := None; self' := self; printed := [] |}) \/
  (trade_is_next self /\ exists u,
     _update_trade self = Ok u /\
     o = {| returned := Some (_price_ladder_df (self' u)); self' := self' u;
            printed := printed u |}) \/
  (quote_is_next self /\ exists u,
     _update_quote self = Ok u /\
     o = {| returned := Some (_price_ladder_df (self' u)); self' := self' u;
            printed := printed u |}).
Proof.
  intros H. destruct (next_cases self) as [He|[Ht|Hq]].
  - left. split; [exact He|]. rewrite (get_next_at_end _ He) in H. congruence.
  - right; left. split; [exact Ht|]. rewrite (get_next_trade _ Ht) in H.
    inv_bind. eauto.
  - right; right. split; [exact Hq|]. rewrite (get_next_quote _ Hq) in H.
    inv_bind. eauto.
Qed.

(** ** Quotes *)

Lemma linspace_length (start stop : float) (num : nat) :
  length (linspace start stop num) = num.
Proof.
  unfold linspace.
  destruct (0 <? Z.of_nat num - 1)%Z; [destruct (_ =? 0)%float|];
  destruct (1 <? Z.of_nat num)%Z;
    rewrite ?length_insert, !length_fmap, length_seq; reflexivity.
Qed.

Lemma reset_ladder_length (config : Config) (q : Quote) :
  length (reset_ladder config q) = row_count config.
Proof. apply linspace_length. Qed.

(** The grid a reset produces: the fresh ladder, and a frame of as many rows
    as before whose row [i] holds the label of level [i] and nothing else. *)
Lemma reset_price_ladder_inv (self : MarketData) (ladder : option (list float))
    (df0 : DataFrame) :
  reset_price_ladder self = Ok (ladder, df0) ->
  exists q,
    _quotes_df self !! _quotes_row self = Some q /\
    ladder = Some (reset_ladder (_config self) q) /\
    length (_price_ladder_df self) = row_count (_config self) /\
    length df0 = row_count (_config self) /\
    forall i r0,
      df0 !! i = Some r0 ->
      exists level,
        reset_ladder (_config self) q !! i = Some level /\
        r0 = {| col0 := ""; col1 := ""; col2 := price_format (_config self) level;
                col3 := ""; col4 := "" |}.
Proof.
  unfold reset_price_ladder, set_labels, clear_sizes_and_volumes. intros H.
  inv_bind. apply loc_Ok in Ha. exists a. split; [exact Ha|].
  rewrite !length_fmap, reset_ladder_length in Ha0.
  destruct (row_count (_config self) =? length (_price_ladder_df self))%nat eqn:Hlen;
    [|discriminate].
  apply Nat.eqb_eq in Hlen. injection Ha0 as <-. subst ladder df0.
  split; [reflexivity|]. split; [congruence|]. split.
  - rewrite length_zip_with, !length_fmap, reset_ladder_length. lia.
  - intros i r0 Hr0. rewrite lookup_zip_with in Hr0.
    rewrite !list_lookup_fmap in Hr0.
    destruct (reset_ladder (_config self) a !! i) as [level|]; [|discriminate].
    destruct (_price_ladder_df self !! i) as [r|]; [|discriminate].
    simpl in Hr0. injection Hr0 as <-. exists level. split; reflexivity.
Qed.

(** The rows a quote leaves, in terms of the grid [df0] the loop starts
    from. *)
Lemma quote_loop_rows (self : MarketData) (ladder : option (list float))
    (df0 df : DataFrame) :
  for_range (row_count (_config self)) (quote_row self ladder) df0 = Ok df ->
  length df = length df0 /\
  forall i r,
    df !! i = Some r ->
    exists r0,
      df0 !! i = Some r0 /\
      (r = r0 \/ quote_cells self ladder i r0 = Ok r).
Proof.
  intros H.
  apply (for_range_rowwise _ _ (quote_row_rowwise self ladder)) in H as [Hlen Hrows].
  split; [exact Hlen|]. intros i r Hr. destruct (Hrows i) as [Hin Hout].
  destruct (Nat.lt_ge_cases i (row_count (_config self))) as [Hi|Hi].
  - destruct (Hin Hi) as (s & s' & Hs & Hf & Hs').
    exists s. split; [exact Hs|]. right. congruence.
  - exists r. split; [rewrite <- (Hout Hi); exact Hr | left; reflexivity].
Qed.

(** The same for a trade, read from the new frame. *)
Lemma update_trade_rows_back (self : MarketData) (o : outcome unit) :
  _update_trade self = Ok o ->
  forall i r',
    _price_ladder_df (self' o) !! i = Some r' ->
    exists r,
      _price_ladder_df self !! i = Some r /\
      (r' = r \/ trade_cells self i r = Ok r').
Proof.
  intros H i r' Hr'. destruct (update_trade_rows self o H) as [Hlen Hrows].
  destruct (lookup_lt_is_Some_2 (_price_ladder_df self) i) as [r Hr].
  { rewrite <- Hlen. eapply lookup_lt_Some, Hr'. }
  destruct (Hrows i r Hr) as (s & Hs & Hcase).
  exists r. split; [exact Hr|]. replace r' with s by congruence. exact Hcase.
Qed.

(** ** Buy and sell aggregates exclude each other *)

Lemma trade_cells_exclusive (self : MarketData) (i : nat) (r r' : Row) :
  trade_cells self i r = Ok r' -> exclusive r -> exclusive r'.
Proof.
  unfold trade_cells, exclusive. intros H Hr. inv_bind.
  destruct (isclose a (price a0)).
  - destruct (truthy (col1 r)); [inv_bind; subst r'; simpl; auto|].
    destruct (truthy (col3 r)); inv_bind; subst r'; simpl; auto.
  - inv_bind. subst r'. simpl. auto.
Qed.

Lemma update_trade_exclusive (self : MarketData) (o : outcome unit) :
  _update_trade self = Ok o ->
  Forall exclusive (_price_ladder_df self) ->
  Forall exclusive (_price_ladder_df (self' o)).
Proof.
  intros H. rewrite !Forall_lookup. intros Hall i r' Hr'.
  destruct (update_trade_rows_back self o H i r' Hr') as (r & Hr & [->|Hcells]).
  - eapply Hall, Hr.
  - eapply trade_cells_exclusive; [exact Hcells | eapply Hall, Hr].
Qed.

Lemma update_quote_exclusive (self : MarketData) (o : outcome unit) :
  _update_quote self = Ok o ->
  Forall exclusive (_price_ladder_df self) ->
  Forall exclusive (_price_ladder_df (self' o)).
Proof.
  intros H. apply update_quote_inv in H
    as (reset & ladder & df0 & df & q & _ & Hgrid & Hloop & _ & ->). simpl.
  rewrite !Forall_lookup. intros Hall i r Hr.
  destruct (quote_loop_rows _ _ _ _ Hloop) as [_ Hrows].
  destruct (Hrows i r Hr) as (r0 & Hr0 & Hcase).
  assert (H0 : exclusive r0).
  { destruct reset.
    - apply reset_price_ladder_inv in Hgrid as (q' & _ & _ & _ & _ & Hdf0).
      destruct (Hdf0 i r0 Hr0) as (level & _ & ->). left. reflexivity.
    - destruct Hgrid as [_ ->]. eapply Hall, Hr0. }
  destruct Hcase as [->|Hcells]; [exact H0|].
  apply quote_cells_frame in Hcells as (E0 & _ & E4).
  unfold exclusive in *. rewrite E0, E4. exact H0.
Qed.

(** ** The end of the data *)

Lemma update_trade_cursors (self : MarketData) (o : outcome unit) :
  _update_trade self = Ok o ->
  exists t,
    _trades_df self !! _trades_row self = Some t /\
    printed o = [TradeLine t] /\
    _quotes_row (self' o) = _quotes_row self /\
    _trades_row (self' o) = (_trades_row self + 1)%nat /\
    _quotes_df (self' o) = _quotes_df self /\
    _trades_df (self' o) = _trades_df self /\
    _config (self' o) = _config self.
Proof.
  intros H. apply update_trade_inv in H as (df & t & _ & Ht & ->).
  exists t. repeat split; auto.
Qed.

Lemma update_quote_cursors (self : MarketData) (o : outcome unit) :
  _update_quote self = Ok o ->
  exists q,
    _quotes_df self !! _quotes_row self = Some q /\
    printed o = [QuoteLine q] /\
    _quotes_row (self' o) = (_quotes_row self + 1)%nat /\
    _trades_row (self' o) = _trades_row self /\
    _quotes_df (self' o) = _quotes_df self /\
    _trades_df (self' o) = _trades_df self /\
    _config (self' o) = _config self.
Proof.
  intros H. apply update_quote_inv in H
    as (reset & ladder & df0 & df & q & _ & _ & _ & Hq & ->).
  exists q. repeat split; auto.
Qed.

(** Along a replay the configuration and the streams stay the same and no
    cursor passes the end of its stream. *)
Lemma reachable_cursors (init self : MarketData) :
  (_quotes_row init <= length (_quotes_df init))%nat ->
  (_trades_row init <= length (_trades_df init))%nat ->
  reachable init self ->
  _config self = _config init /\
  _quotes_df self = _quotes_df init /\
  _trades_df self = _trades_df init /\
  (_quotes_row init <= _quotes_row self <= length (_quotes_df self))%nat /\
  (_trades_row init <= _trades_row self <= length (_trades_df self))%nat.
Proof.
  intros Hq Ht Hreach. induction Hreach as [|self o Hreach IH Hstep].
  - repeat split; auto.
  - destruct IH as (Ec & Eq & Et & Hq' & Ht').
    apply get_next_inv in Hstep
      as [[_ ->]|[(_ & u & Hu & ->)|(_ & u & Hu & ->)]]; simpl.
    + repeat split; auto; lia.
    + apply update_trade_cursors in Hu as (t & Hlt & _ & -> & -> & -> & -> & ->).
      apply lookup_lt_Some in Hlt. repeat split; auto; lia.
    + apply update_quote_cursors in Hu as (q & Hlt & _ & -> & -> & -> & -> & ->).
      apply lookup_lt_Some in Hlt. repeat split; auto; lia.
Qed.

(** ** Virtual time *)

Lemma time_elapsed_at_end (self : MarketData) :
  at_end self -> get_price_ladder_time_elapsed self = Ok 0%Z.
Proof.
  intros [Hq Ht]. unfold get_price_ladder_time_elapsed.
  apply past_end_true in Hq, Ht. rewrite Hq, Ht. reflexivity.
Qed.

Lemma time_elapsed_both_pending (self : MarketData) (q0 q : Quote) (t0 t : Trade) :
  _quotes_df self !! 0%nat = Some q0 ->
  _trades_df self !! 0%nat = Some t0 ->
  _quotes_df self !! _quotes_row self = Some q ->
  _trades_df self !! _trades_row self = Some t ->
  get_price_ladder_time_elapsed self =
  Ok (Z.min (q_time_value q) (t_time_value t)
      - Z.min (q_time_value q0) (t_time_value t0))%Z.
Proof.
  intros Hq0 Ht0 Hq Ht. unfold get_price_ladder_time_elapsed.
  assert (Hp : past_end (_quotes_row self) (_quotes_df self) = false)
    by (apply past_end_false; eapply lookup_lt_Some, Hq).
  rewrite Hp. simpl.
  apply loc_Ok in Hq0, Ht0, Hq, Ht. rewrite Hq0, Ht0. simpl.
  rewrite Hq, Ht. reflexivity.
Qed.

(** ** Chronological order *)

Lemma StronglySorted_lookup_le {A : Type} (R : relation A) `{!Reflexive R}
    (l : list A) (i j : nat) (x y : A) :
  StronglySorted R l -> (i <= j)%nat ->
  l !! i = Some x -> l !! j = Some y -> R x y.
Proof.
  intros Hs. revert i j. induction Hs as [|a l Hs IH Hall]; intros i j Hij Hx Hy.
  - discriminate.
  - destruct i as [|i], j as [|j]; simpl in *.
    + injection Hx as <-. injection Hy as <-. reflexivity.
    + injection Hx as <-. rewrite Forall_forall in Hall.
      apply Hall. eapply list_elem_of_lookup_2, Hy.
    + lia.
    + eapply IH; [|eassumption..]. lia.
Qed.

Global Instance quote_le_refl : Reflexive quote_le.
Proof. intros q. unfold quote_le. lia. Qed.
Global Instance quote_le_trans : Transitive quote_le.
Proof. intros a b c. unfold quote_le. lia. Qed.
Global Instance trade_le_refl : Reflexive trade_le.
Proof. intros q. unfold trade_le. lia. Qed.
Global Instance trade_le_trans : Transitive trade_le.
Proof. intros a b c. unfold trade_le. lia. Qed.

Lemma get_next_pending (self : MarketData) (o : outcome (option DataFrame)) :
  get_next_price_ladder_df self = Ok o ->
  Forall (pending self) (printed o) /\
  forall e, pending (self' o) e -> pending self e.
Proof.
  intros H. apply get_next_inv in H
    as [[_ ->]|[(_ & u & Hu & ->)|(_ & u & Hu & ->)]]; simpl.
  - split; [constructor | auto].
  - apply update_trade_cursors in Hu as (t & Ht & -> & Eq & Et & Eqs & Ets & _).
    split.
    + repeat constructor. exists (_trades_row self). auto.
    + unfold pending. rewrite Eq, Et, Eqs, Ets.
      intros [q|t'] (k & Hk & Hlook); exists k; (split; [lia | exact Hlook]).
  - apply update_quote_cursors in Hu as (q & Hq & -> & Eq & Et & Eqs & Ets & _).
    split.
    + repeat constructor. exists (_quotes_row self). auto.
    + unfold pending. rewrite Eq, Et, Eqs, Ets.
      intros [q'|t'] (k & Hk & Hlook); exists k; (split; [lia | exact Hlook]).
Qed.

Lemma replay_pending (n : nat) :
  forall self evs self_n,
    replay n self = Ok (evs, self_n) -> Forall (pending self) evs.
Proof.
  induction n as [|n IH]; intros self evs self_n H; simpl in H.
  - injection H as <- _. constructor.
  - inv_bind. destruct a0 as [evs' s']. simpl in *. subst.
    apply get_next_pending in Ha as [Hnow Hlater].
    apply Forall_app. split; [exact Hnow|].
    eapply Forall_impl; [eapply IH, Ha0 | exact Hlater].
Qed.

(** The record a call applies may come before every record still pending
    after it. *)
Lemma get_next_first (self : MarketData) (o : outcome (option DataFrame)) :
  StronglySorted quote_le (_quotes_df self) ->
  StronglySorted trade_le (_trades_df self) ->
  get_next_price_ladder_df self = Ok o ->
  forall e e', e ∈ printed o -> pending (self' o) e' -> applied_before e e'.
Proof.
  intros Sq St H e e' He He'. apply get_next_inv in H
    as [[_ ->]|[([_ Hnext] & u & Hu & ->)|([_ Hnext] & u & Hu & ->)]];
    simpl in *.
  - inversion He.
  - apply update_trade_cursors in Hu as (t & Ht & Ep & Eq & Et & Eqs & Ets & _).
    rewrite Ep in He. apply list_elem_of_singleton in He as ->.
    unfold pending in He'. rewrite Eq, Et, Eqs, Ets in He'.
    destruct e' as [q'|t']; destruct He' as (k & Hk & Hlook); simpl.
    + destruct Hnext as [Hend|(q & t0 & Hq & Ht0 & Hle)].
      * apply lookup_lt_Some in Hlook. lia.
      * assert (t0 = t) as -> by congruence.
        pose proof (StronglySorted_lookup_le quote_le _ _ _ _ _ Sq Hk Hq Hlook) as Hqq.
        unfold quote_le in Hqq. lia.
    + assert (Hk' : (_trades_row self <= k)%nat) by lia.
      exact (StronglySorted_lookup_le trade_le _ _ _ _ _ St Hk' Ht Hlook).
  - apply update_quote_cursors in Hu as (q & Hq & Ep & Eq & Et & Eqs & Ets & _).
    rewrite Ep in He. apply list_elem_of_singleton in He as ->.
    unfold pending in He'. rewrite Eq, Et, Eqs, Ets in He'.
    destruct e' as [q'|t']; destruct He' as (k & Hk & Hlook); simpl.
    + assert (Hk' : (_quotes_row self <= k)%nat) by lia.
      exact (StronglySorted_lookup_le quote_le _ _ _ _ _ Sq Hk' Hq Hlook).
    + destruct Hnext as [Hend|(q0 & t & Hq0 & Ht & Hlt)].
      * apply lookup_lt_Some in Hlook. lia.
      * assert (q0 = q) as -> by congruence.
        pose proof (StronglySorted_lookup_le trade_le _ _ _ _ _ St Hk Ht Hlook) as Htt.
        unfold trade_le in Htt. lia.
Qed.

Lemma get_next_streams (self : MarketData) (o : outcome (option DataFrame)) :
  get_next_price_ladder_df self = Ok o ->
  _quotes_df (self' o) = _quotes_df self /\
  _trades_df (self' o) = _trades_df self /\
  _config (self' o) = _config self.
Proof.
  intros H. apply get_next_inv in H
    as [[_ ->]|[(_ & u & Hu & ->)|(_ & u & Hu & ->)]]; simpl.
  - auto.
  - apply update_trade_cursors in Hu as (t & _ & _ & _ & _ & -> & -> & ->). auto.
  - apply update_quote_cursors in Hu as (q & _ & _ & _ & _ & -> & -> & ->). auto.
Qed.

Lemma get_next_printed (self : MarketData) (o : outcome (option DataFrame)) :
  get_next_price_ladder_df self = Ok o ->
  printed o = [] \/ exists e, printed o = [e].
Proof.
  intros H. apply get_next_inv in H
    as [[_ ->]|[(_ & u & Hu & ->)|(_ & u & Hu & ->)]]; simpl.
  - left. reflexivity.
  - apply update_trade_cursors in Hu as (t & _ & -> & _). right. eauto.
  - apply update_quote_cursors in Hu as (q & _ & -> & _). right. eauto.
Qed.

Lemma replay_sorted (n : nat) :
  forall self evs self_n,
    StronglySorted quote_le (_quotes_df self) ->
    StronglySorted trade_le (_trades_df self) ->
    replay n self = Ok (evs, self_n) ->
    StronglySorted applied_before evs.
Proof.
  induction n as [|n IH]; intros self evs self_n Sq St H; simpl in H.
  - injection H as <- _. constructor.
  - inv_bind. destruct a0 as [evs' s']. simpl in *. subst.
    pose proof (get_next_streams _ _ Ha) as (Eq & Et & _).
    assert (Hrest : StronglySorted applied_before evs').
    { eapply IH; [| |exact Ha0]; [rewrite Eq | rewrite Et]; assumption. }
    pose proof (get_next_first _ _ Sq St Ha) as Hfirst.
    pose proof (replay_pending _ _ _ _ Ha0) as Hpend.
    destruct (get_next_printed _ _ Ha) as [->|[e He]]; [exact Hrest|].
    rewrite He in *. simpl. constructor; [exact Hrest|].
    eapply Forall_impl; [exact Hpend|]. intros e'. apply Hfirst. left.
Qed.

(** ** No call raises *)

Lemma int_str (z : Z) : int (str z) = Ok z.
Proof.
  unfold int, str. rewrite NilZero.isi.
  - rewrite DecimalZ.of_to. reflexivity.
  - destruct z; simpl; [discriminate| |discriminate].
    intros [= E]. exact (DecimalPos.Unsigned.to_uint_nonnil _ E).
  - destruct z; simpl; [discriminate|discriminate|].
    intros [= E]. exact (DecimalPos.Unsigned.to_uint_nonnil _ E).
Qed.

Lemma well_formed_init (config : Config) (quotes_df : list Quote)
    (trades_df : list Trade) :
  well_formed (__init__ config quotes_df trades_df).
Proof.
  constructor; simpl.
  - apply length_replicate.
  - apply Forall_replicate. split; left; reflexivity.
  - lia.
  - lia.
  - lia.
Qed.

Lemma aggregate_total (cell : string) (v : Z) :
  numeral_or_empty cell -> exists v', aggregate cell v = Ok v'.
Proof.
  unfold aggregate. intros [->|[z ->]]; simpl; [eauto|].
  destruct (truthy (str z)); [|eauto].
  rewrite int_str. simpl. eauto.
Qed.

Lemma getitem_total (l : list float) (i : nat) :
  (i < length l)%nat -> exists level, getitem (Some l) i = Ok level.
Proof.
  intros Hi. destruct (lookup_lt_is_Some_2 l i Hi) as [x Hx].
  exists x. simpl. rewrite Hx. reflexivity.
Qed.

Lemma trade_cells_total (self : MarketData) (l : list float) (t : Trade)
    (i : nat) (r : Row) :
  _price_ladder self = Some l -> (i < length l)%nat ->
  _trades_df self !! _trades_row self = Some t ->
  aggregates_ok r ->
  exists r', trade_cells self i r = Ok r'.
Proof.
  intros Hl Hi Ht [H0 H4]. unfold trade_cells. rewrite Hl.
  destruct (getitem_total l i Hi) as [level ->]. simpl.
  apply loc_Ok in Ht. rewrite Ht. simpl.
  destruct (isclose level (price t)); [|eauto].
  destruct (truthy (col1 r)).
  - destruct (aggregate_total (col0 r) (volume t) H0) as [v ->]. simpl. eauto.
  - destruct (truthy (col3 r)); [|eauto].
    destruct (aggregate_total (col4 r) (volume t) H4) as [v ->]. simpl. eauto.
Qed.

Lemma trade_cells_aggregates_ok (self : MarketData) (i : nat) (r r' : Row) :
  trade_cells self i r = Ok r' -> aggregates_ok r -> aggregates_ok r'.
Proof.
  unfold trade_cells, aggregates_ok, numeral_or_empty. intros H Hr. inv_bind.
  destruct (isclose a (price a0)).
  - destruct (truthy (col1 r)); [inv_bind; subst r'; simpl; eauto|].
    destruct (truthy (col3 r)); inv_bind; subst r'; simpl; eauto.
  - inv_bind. subst r'. simpl. auto.
Qed.

Lemma update_trade_total (self : MarketData) :
  well_formed self ->
  (_trades_row self < length (_trades_df self))%nat ->
  exists o, _update_trade self = Ok o.
Proof.
  intros Hwf Ht. destruct (lookup_lt_is_Some_2 _ _ Ht) as [t Hlook].
  unfold _update_trade.
  assert (Hdf : exists df,
    (if (0 <? _quotes_row self)%nat
     then for_range (row_count (_config self)) (trade_row self)
            (_price_ladder_df self)
     else Ok (_price_ladder_df self)) = Ok df).
  { destruct (0 <? _quotes_row self)%nat eqn:Hq; [|eauto].
    apply Nat.ltb_lt in Hq. destruct (wf_ladder _ Hwf Hq) as (l & Hl & Hlen).
    apply (for_range_rowwise_total _ _ (trade_row_rowwise self)).
    intros j Hj.
    destruct (lookup_lt_is_Some_2 (_price_ladder_df self) j) as [r Hr].
    { rewrite (wf_rows _ Hwf). exact Hj. }
    destruct (trade_cells_total self l t j r Hl) as [r' Hr']; try assumption.
    - lia.
    - pose proof (wf_cells _ Hwf) as Hall. rewrite Forall_lookup in Hall.
      eapply Hall, Hr.
    - eauto. }
  destruct Hdf as [df ->]. simpl.
  apply iloc_row_Ok in Hlook. rewrite Hlook. simpl. eauto.
Qed.

Lemma update_trade_well_formed (self : MarketData) (o : outcome unit) :
  well_formed self -> _update_trade self = Ok o -> well_formed (self' o).
Proof.
  intros Hwf H.
  pose proof (update_trade_rows _ _ H) as [Hlen _].
  pose proof (update_trade_rows_back _ _ H) as Hback.
  pose proof (update_trade_inv _ _ H) as (df & t0 & _ & _ & Eo).
  assert (El : _price_ladder (self' o) = _price_ladder self) by (subst o; reflexivity).
  apply update_trade_cursors in H as (t & Ht & _ & Eq & Et & Eqs & Ets & Ec).
  apply lookup_lt_Some in Ht.
  constructor.
  - rewrite Hlen, Ec. apply (wf_rows _ Hwf).
  - rewrite Forall_lookup. intros i r' Hr'.
    destruct (Hback i r' Hr') as (r & Hr & Hcase).
    pose proof (wf_cells _ Hwf) as Hall. rewrite Forall_lookup in Hall.
    destruct Hcase as [->|Hcells]; [eapply Hall, Hr|].
    eapply trade_cells_aggregates_ok; [exact Hcells | eapply Hall, Hr].
  - rewrite Eq, El, Ec. apply (wf_ladder _ Hwf).
  - rewrite Eq, Eqs. apply (wf_quotes _ Hwf).
  - rewrite Et, Ets. lia.
Qed.

Lemma outside_ladder_total (self : MarketData) :
  well_formed self ->
  (1 <= row_count (_config self))%nat ->
  (_quotes_row self < length (_quotes_df self))%nat ->
  exists reset : bool,
    outside_ladder self = Ok reset /\
    (reset = false -> (0 < _quotes_row self)%nat).
Proof.
  intros Hwf Hrc Hq. unfold outside_ladder.
  destruct (_quotes_row self =? 0)%nat eqn:E0.
  - exists true. split; [reflexivity | discriminate].
  - apply Nat.eqb_neq in E0. assert (Hpos : (0 < _quotes_row self)%nat) by lia.
    destruct (wf_ladder _ Hwf Hpos) as (l & -> & Hlen).
    destruct (lookup_lt_is_Some_2 _ _ Hq) as [q Hlook].
    apply loc_Ok in Hlook. rewrite Hlook. simpl.
    destruct l as [|top l]; [simpl in Hlen; lia|]. simpl.
    destruct (_ <? ask_price q)%float; [eauto|].
    destruct (last (top :: l)) as [bottom|] eqn:Hlast.
    + simpl. eauto.
    + apply last_None in Hlast. discriminate.
Qed.

Lemma reset_price_ladder_total (self : MarketData) (q : Quote) :
  well_formed self ->
  _quotes_df self !! _quotes_row self = Some q ->
  exists df0,
    reset_price_ladder self = Ok (Some (reset_ladder (_config self) q), df0).
Proof.
  intros Hwf Hq. unfold reset_price_ladder, set_labels, clear_sizes_and_volumes.
  apply loc_Ok in Hq. rewrite Hq. simpl.
  rewrite !length_fmap, reset_ladder_length, (wf_rows _ Hwf), Nat.eqb_refl.
  simpl. eauto.
Qed.

(** The grid the loop of [_update_quote] starts from: a ladder of
    [row_count] levels and a frame of [row_count] rows with well-formed
    aggregates. *)
Lemma update_quote_grid (self : MarketData) (reset : bool)
    (ladder : option (list float)) (df0 : DataFrame) :
  well_formed self ->
  (reset = false -> (0 < _quotes_row self)%nat) ->
  (if reset then reset_price_ladder self = Ok (ladder, df0)
   else ladder = _price_ladder self /\ df0 = _price_ladder_df self) ->
  (exists l, ladder = Some l /\ length l = row_count (_config self)) /\
  length df0 = row_count (_config self) /\
  Forall aggregates_ok df0.
Proof.
  intros Hwf Hpos Hgrid. destruct reset.
  - apply reset_price_ladder_inv in Hgrid as (q & _ & -> & _ & Hlen & Hrows).
    split; [|split].
    + eexists. split; [reflexivity | apply reset_ladder_length].
    + exact Hlen.
    + rewrite Forall_lookup. intros i r0 Hr0.
      destruct (Hrows i r0 Hr0) as (level & _ & ->).
      split; left; reflexivity.
  - destruct Hgrid as [-> ->]. split; [|split].
    + apply (wf_ladder _ Hwf). apply Hpos. reflexivity.
    + apply (wf_rows _ Hwf).
    + apply (wf_cells _ Hwf).
Qed.

Lemma update_quote_total (self : MarketData) :
  well_formed self ->
  (1 <= row_count (_config self))%nat ->
  (_quotes_row self < length (_quotes_df self))%nat ->
  exists o, _update_quote self = Ok o.
Proof.
  intros Hwf Hrc Hq.
  destruct (outside_ladder_total self Hwf Hrc Hq) as (reset & Hreset & Hpos).
  destruct (lookup_lt_is_Some_2 _ _ Hq) as [q Hlook].
  assert (Hgrid : exists ladder df0,
    (if reset then reset_price_ladder self
     else Ok (_price_ladder self, _price_ladder_df self)) = Ok (ladder, df0) /\
    (if reset then reset_price_ladder self = Ok (ladder, df0)
     else ladder = _price_ladder self /\ df0 = _price_ladder_df self)).
  { destruct reset.
    - destruct (reset_price_ladder_total self q Hwf Hlook) as [df0 Hdf0]. eauto.
    - eauto 6. }
  destruct Hgrid as (ladder & df0 & Hrun & Hgrid).
  destruct (update_quote_grid self reset ladder df0 Hwf Hpos Hgrid)
    as ((l & -> & Hl) & Hlen & _).
  destruct (for_range_rowwise_total _ _ (quote_row_rowwise self (Some l))
              (row_count (_config self)) df0) as [df Hdf].
  { intros j Hj.
    destruct (lookup_lt_is_Some_2 df0 j) as [r Hr]; [lia|].
    exists r. unfold quote_cells.
    destruct (getitem_total l j) as [level ->]; [lia|]. simpl.
    pose proof Hlook as Hloc. apply loc_Ok in Hloc. rewrite Hloc. simpl. eauto. }
  unfold _update_quote. rewrite Hreset. simpl. rewrite Hrun. simpl.
  rewrite Hdf. simpl. apply iloc_row_Ok in Hlook. rewrite Hlook. simpl. eauto.
Qed.

Lemma update_quote_well_formed (self : MarketData) (o : outcome unit) :
  well_formed self -> _update_quote self = Ok o -> well_formed (self' o).
Proof.
  intros Hwf H.
  apply update_quote_inv in H
    as (reset & ladder & df0 & df & q & Hreset & Hgrid & Hloop & Hq & ->).
  assert (Hpos : reset = false -> (0 < _quotes_row self)%nat).
  { intros ->. unfold outside_ladder in Hreset.
    destruct (_quotes_row self =? 0)%nat eqn:E0; [discriminate|].
    apply Nat.eqb_neq in E0. lia. }
  destruct (update_quote_grid self reset ladder df0 Hwf Hpos Hgrid)
    as (Hl & Hlen & Hcells).
  destruct (quote_loop_rows _ _ _ _ Hloop) as [Hlen' Hrows].
  apply lookup_lt_Some in Hq.
  constructor; simpl.
  - lia.
  - rewrite Forall_lookup. intros i r Hr.
    destruct (Hrows i r Hr) as (r0 & Hr0 & Hcase).
    rewrite Forall_lookup in Hcells. specialize (Hcells i r0 Hr0).
    destruct Hcase as [->|Hf]; [exact Hcells|].
    apply quote_cells_frame in Hf as (E0 & _ & E4).
    unfold aggregates_ok in *. rewrite E0, E4. exact Hcells.
  - intros _. exact Hl.
  - lia.
  - apply (wf_trades _ Hwf).
Qed.

(** Every call succeeds on a well-formed object and leaves it well-formed. *)
Lemma get_next_total (self : MarketData) :
  well_formed self ->
  (1 <= row_count (_config self))%nat ->
  exists o, get_next_price_ladder_df self = Ok o /\ well_formed (self' o).
Proof.
  intros Hwf Hrc. destruct (next_cases self) as [He|[Ht|Hq]].
  - rewrite (get_next_at_end _ He). eauto.
  - rewrite (get_next_trade _ Ht). destruct Ht as [Ht _].
    destruct (update_trade_total self Hwf Ht) as [u Hu]. rewrite Hu. simpl.
    eexists. split; [reflexivity|]. simpl.
    eapply update_trade_well_formed; eassumption.
  - rewrite (get_next_quote _ Hq). destruct Hq as [Hq _].
    destruct (update_quote_total self Hwf Hrc Hq) as [u Hu]. rewrite Hu. simpl.
    eexists. split; [reflexivity|]. simpl.
    eapply update_quote_well_formed; eassumption.
Qed.

Lemma replay_total (n : nat) :
  forall self,
    well_formed self ->
    (1 <= row_count (_config self))%nat ->
    exists evs self_n, replay n self = Ok (evs, self_n) /\ well_formed self_n.
Proof.
  induction n as [|n IH]; intros self Hwf Hrc; simpl.
  - eauto.
  - destruct (get_next_total self Hwf Hrc) as (o & Ho & Hwf').
    rewrite Ho. simpl.
    destruct (IH (self' o) Hwf') as (evs & self_n & Hrest & Hwfn).
    { destruct (get_next_streams _ _ Ho) as (_ & _ & ->). exact Hrc. }
    rewrite Hrest. simpl. eauto.
Qed.

(** ** Every record is applied, in the order it is stored *)

Lemma replay_lines (n : nat) :
  forall self evs self_n,
    replay n self = Ok (evs, self_n) ->
    take (_quotes_row self_n) (_quotes_df self)
    = take (_quotes_row self) (_quotes_df self) ++ quote_lines evs /\
    take (_trades_row self_n) (_trades_df self)
    = take (_trades_row self) (_trades_df self) ++ trade_lines evs.
Proof.
  induction n as [|n IH]; intros self evs self_n H; simpl in H.
  - injection H as <- <-. simpl. rewrite !app_nil_r. auto.
  - inv_bind. destruct a0 as [evs' s']. simpl in *. subst.
    apply IH in Ha0 as [IHq IHt].
    apply get_next_inv in Ha
      as [[_ ->]|[(_ & u & Hu & ->)|(_ & u & Hu & ->)]]; simpl in *.
    + auto.
    + apply update_trade_cursors in Hu as (t & Ht & Ep & Eq & Et & Eqs & Ets & _).
      rewrite Eq, Et, Eqs, Ets in *. rewrite Ep. simpl.
      split; [exact IHq|]. rewrite IHt.
      replace (_trades_row self + 1)%nat with (S (_trades_row self)) by lia.
      rewrite (take_S_r _ _ _ Ht), <- app_assoc. reflexivity.
    + apply update_quote_cursors in Hu as (q & Hq & Ep & Eq & Et & Eqs & Ets & _).
      rewrite Eq, Et, Eqs, Ets in *. rewrite Ep. simpl.
      split; [|exact IHt]. rewrite IHq.
      replace (_quotes_row self + 1)%nat with (S (_quotes_row self)) by lia.
      rewrite (take_S_r _ _ _ Hq), <- app_assoc. reflexivity.
Qed.

(** Each call before the end consumes exactly one record. *)
Lemma replay_progress (n : nat) :
  forall self evs self_n,
    (_quotes_row self <= length (_quotes_df self))%nat ->
    (_trades_row self <= length (_trades_df self))%nat ->
    replay n self = Ok (evs, self_n) ->
    (_quotes_row self_n <= length (_quotes_df self))%nat /\
    (_trades_row self_n <= length (_trades_df self))%nat /\
    (_quotes_row self_n + _trades_row self_n
     = (_quotes_row self + _trades_row self + n)
       `min` (length (_quotes_df self) + length (_trades_df self)))%nat.
Proof.
  induction n as [|n IH]; intros self evs self_n Hq Ht H; simpl in H.
  - injection H as _ <-. lia.
  - inv_bind. destruct a0 as [evs' s']. simpl in *. subst.
    apply get_next_inv in Ha
      as [[[Hqe Hte] ->]|[([Hlt _] & u & Hu & ->)|([Hlt _] & u & Hu & ->)]];
      simpl in *.
    + apply IH in Ha0; lia.
    + apply update_trade_cursors in Hu as (t & _ & _ & Eq & Et & Eqs & Ets & _).
      apply IH in Ha0; rewrite ?Eq, ?Et, ?Eqs, ?Ets in *; lia.
    + apply update_quote_cursors in Hu as (q & _ & _ & Eq & Et & Eqs & Ets & _).
      apply IH in Ha0; rewrite ?Eq, ?Et, ?Eqs, ?Ets in *; lia.
Qed.

(** ** Price levels *)

(** With at least two samples, the last one is [stop] itself. *)
Lemma linspace_last (start stop : float) (num : nat) :
  (2 <= num)%nat -> last (linspace start stop num) = Some stop.
Proof.
  intros Hnum. rewrite last_lookup, linspace_length.
  unfold linspace.
  assert (H1 : (1 <? Z.of_nat num)%Z = true) by (apply Z.ltb_lt; lia).
  rewrite H1. apply list_lookup_insert_eq.
  destruct (0 <? Z.of_nat num - 1)%Z; [destruct (_ =? 0)%float|];
    rewrite !length_fmap, length_seq; lia.
Qed.

(** Below the last one, sample [i] is [i * step + start]. *)
Lemma linspace_lookup (start stop : float) (num i : nat) :
  (S i < num)%nat ->
  let step := ((stop - start) / float_of_Z (Z.of_nat num - 1))%float in
  (step =? 0)%float = false ->
  linspace start stop num !! i
  = Some (float_of_Z (Z.of_nat i) * step + start)%float.
Proof.
  intros Hi step Hstep. unfold linspace.
  assert (H0 : (0 <? Z.of_nat num - 1)%Z = true) by (apply Z.ltb_lt; lia).
  assert (H1 : (1 <? Z.of_nat num)%Z = true) by (apply Z.ltb_lt; lia).
  rewrite H0, H1. fold step. rewrite Hstep.
  rewrite list_lookup_insert_ne by lia.
  rewrite !list_lookup_fmap, lookup_seq_lt by lia. reflexivity.
Qed.


(** An int64 sum that fits is the sum; one past the largest int64 is the
    smallest. *)
Lemma wrap_int64_fits (z : Z) :
  (- 2 ^ 63 <= z < 2 ^ 63)%Z -> wrap_int64 z = z.
Proof.
  intros H. unfold wrap_int64. rewrite Z.mod_small; lia.
Qed.

Lemma wrap_int64_range (z : Z) : (- 2 ^ 63 <= wrap_int64 z < 2 ^ 63)%Z.
Proof.
  unfold wrap_int64.
  pose proof (Z.mod_pos_bound (z + 2 ^ 63) (2 ^ 64) ltac:(lia)). lia.
Qed.

Lemma wrap_int64_overflow : wrap_int64 (2 ^ 63 - 1 + 1) = (- 2 ^ 63)%Z.
Proof. reflexivity. Qed.

(** ** When the ladder is reset *)

Lemma outside_ladder_iff (self : MarketData) (q : Quote) (reset : bool) :
  _quotes_df self !! _quotes_row self = Some q ->
  outside_ladder self = Ok reset ->
  (reset = true <-> quote_outside self q).
Proof.
  intros Hq. apply loc_Ok in Hq. unfold outside_ladder, quote_outside.
  destruct (_quotes_row self =? 0)%nat eqn:E0.
  - apply Nat.eqb_eq in E0. intros [= <-]. split; auto.
  - apply Nat.eqb_neq in E0. rewrite Hq. simpl.
    destruct (getitem (_price_ladder self) 0) as [top|e]; simpl; [|discriminate].
    destruct (top + 0.5 * tick_size (_config self) <? ask_price q)%float eqn:Ea.
    + intros [= <-]. split; [|reflexivity].
      intros _. right; left. eauto.
    + destruct (getitem_last (_price_ladder self)) as [bottom|e]; simpl;
        [|discriminate].
      intros [= <-]. split.
      * intros Hb. right; right. eauto.
      * intros [H0|[(top' & [= <-] & Hlt)|(bottom' & [= <-] & Hlt)]];
          [contradiction | congruence | exact Hlt].
Qed.

(** A reset need not show the ask.  With four rows, a tick of 0.1 and an ask
    of 0, the level meant for the ask is [0 * step + top] with the rounded
    step, which is not 0 and not close to it: no row shows the ask size. *)
Lemma reset_hides_ask_at_zero :
  (level <~ getitem (_price_ladder (after 1 zero_ask)) 1 ;;
   Ok ((level =? 0)%float, (level <? 0)%float, isclose level 0))
  = Ok (false, true, false) /\
  col3 <$> _price_ladder_df (after 1 zero_ask) = [""; ""; ""; ""] /\
  col1 <$> _price_ladder_df (after 1 zero_ask) = [""; ""; "10"; ""].
Proof. repeat split; vm_compute; reflexivity. Qed.

(** ** Reachable states are well-formed *)

Lemma get_next_well_formed (self : MarketData) (o : outcome (option DataFrame)) :
  well_formed self ->
  get_next_price_ladder_df self = Ok o ->
  well_formed (self' o).
Proof.
  intros Hwf H. apply get_next_inv in H
    as [[_ ->]|[(_ & u & Hu & ->)|(_ & u & Hu & ->)]]; simpl.
  - exact Hwf.
  - eapply update_trade_well_formed; eassumption.
  - eapply update_quote_well_formed; eassumption.
Qed.

Lemma reachable_well_formed (config : Config) (quotes_df : list Quote)
    (trades_df : list Trade) (self : MarketData) :
  reachable (__init__ config quotes_df trades_df) self -> well_formed self.
Proof.
  induction 1 as [|self o Hreach IH Hstep].
  - apply well_formed_init.
  - eapply get_next_well_formed; eassumption.
Qed.

Lemma sample_well_formed (n : nat) : well_formed (after n sample).
Proof.
  apply (reachable_well_formed sample_config sample_quotes sample_trades).
  apply (after_reachable sample).
Qed.

(** ** The rows after an update *)

Lemma truthy_true (s : string) : truthy s = true <-> s <> "".
Proof. destruct s; simpl; split; congruence. Qed.

Lemma truthy_false (s : string) : truthy s = false <-> s = "".
Proof. destruct s; simpl; split; congruence. Qed.

Lemma str_nonempty (z : Z) : str z <> "".
Proof.
  intros E. pose proof (int_str z) as H. rewrite E in H. discriminate H.
Qed.

Lemma aggregate_empty (v : Z) : aggregate "" v = Ok v.
Proof. reflexivity. Qed.

Lemma aggregate_str (prev v : Z) :
  aggregate (str prev) v = Ok (wrap_int64 (v + prev)).
Proof.
  unfold aggregate.
  assert (H : truthy (str prev) = true) by (apply truthy_true, str_nonempty).
  rewrite H, int_str. reflexivity.
Qed.

Lemma update_trade_row_cells (self : MarketData) (o : outcome unit) (i : nat) :
  _update_trade self = Ok o ->
  (0 < _quotes_row self)%nat ->
  (i < row_count (_config self))%nat ->
  exists r r',
    _price_ladder_df self !! i = Some r /\
    trade_cells self i r = Ok r' /\
    _price_ladder_df (self' o) !! i = Some r'.
Proof.
  intros H Hq Hi. apply update_trade_inv in H as (df & t & Hdf & _ & ->). simpl.
  apply Nat.ltb_lt in Hq. rewrite Hq in Hdf.
  apply (for_range_rowwise _ _ (trade_row_rowwise self)) in Hdf as [_ Hrows].
  destruct (Hrows i) as [Hin _]. exact (Hin Hi).
Qed.

Lemma update_trade_state (self : MarketData) (o : outcome unit) :
  _update_trade self = Ok o ->
  _price_ladder (self' o) = _price_ladder self /\
  _config (self' o) = _config self /\
  _quotes_row (self' o) = _quotes_row self /\
  _trades_row (self' o) = (_trades_row self + 1)%nat /\
  _trades_df (self' o) = _trades_df self /\
  _quotes_df (self' o) = _quotes_df self.
Proof.
  intros H. apply update_trade_inv in H as (df & t & _ & _ & ->). simpl.
  repeat split.
Qed.

(** The row a trade leaves where the level matches and a bid is shown. *)
Lemma trade_cells_bid (self : MarketData) (i : nat) (level : float) (t : Trade)
    (r : Row) (v : Z) :
  getitem (_price_ladder self) i = Ok level ->
  _trades_df self !! _trades_row self = Some t ->
  isclose level (price t) = true ->
  col1 r <> "" ->
  aggregate (col0 r) (volume t) = Ok v ->
  trade_cells self i r
  = Ok {| col0 := str v; col1 := col1 r; col2 := col2 r; col3 := col3 r;
          col4 := "" |}.
Proof.
  intros Hlevel Ht Hclose H1 Hv. unfold trade_cells.
  apply loc_Ok in Ht. rewrite Hlevel, Ht. simpl. rewrite Hclose.
  apply truthy_true in H1. rewrite H1, Hv. reflexivity.
Qed.

(** The row a trade leaves where the level matches, no bid is shown and an
    ask is. *)
Lemma trade_cells_ask (self : MarketData) (i : nat) (level : float) (t : Trade)
    (r : Row) (v : Z) :
  getitem (_price_ladder self) i = Ok level ->
  _trades_df self !! _trades_row self = Some t ->
  isclose level (price t) = true ->
  col1 r = "" ->
  col3 r <> "" ->
  aggregate (col4 r) (volume t) = Ok v ->
  trade_cells self i r
  = Ok {| col0 := ""; col1 := col1 r; col2 := col2 r; col3 := col3 r;
          col4 := str v |}.
Proof.
  intros Hlevel Ht Hclose H1 H3 Hv. unfold trade_cells.
  apply loc_Ok in Ht. rewrite Hlevel, Ht. simpl. rewrite Hclose.
  apply truthy_false in H1. apply truthy_true in H3.
  rewrite H1, H3, Hv. reflexivity.
Qed.

Lemma trade_cells_miss (self : MarketData) (i : nat) (level : float) (t : Trade)
    (r : Row) :
  getitem (_price_ladder self) i = Ok level ->
  _trades_df self !! _trades_row self = Some t ->
  isclose level (price t) = false ->
  trade_cells self i r
  = Ok {| col0 := ""; col1 := col1 r; col2 := col2 r; col3 := col3 r;
          col4 := "" |}.
Proof.
  intros Hlevel Ht Hclose. unfold trade_cells.
  apply loc_Ok in Ht. rewrite Hlevel, Ht. simpl. rewrite Hclose. reflexivity.
Qed.

Lemma update_quote_loop_row (self : MarketData) (o : outcome unit) (i : nat) :
  _update_quote self = Ok o ->
  (i < row_count (_config self))%nat ->
  exists r0 r,
    quote_cells self (_price_ladder (self' o)) i r0 = Ok r /\
    _price_ladder_df (self' o) !! i = Some r.
Proof.
  intros H Hi.
  apply update_quote_inv in H
    as (reset & ladder & df0 & df & q' & _ & _ & Hloop & _ & ->). simpl.
  apply (for_range_rowwise _ _ (quote_row_rowwise self ladder)) in Hloop
    as [_ Hrows].
  destruct (Hrows i) as [Hin _].
  destruct (Hin Hi) as (r0 & r & _ & Hcells & Hr). eauto.
Qed.

Lemma quote_cells_sizes (self : MarketData) (ladder : option (list float))
    (i : nat) (r0 r : Row) (q : Quote) :
  quote_cells self ladder i r0 = Ok r ->
  _quotes_df self !! _quotes_row self = Some q ->
  exists level,
    getitem ladder i = Ok level /\
    col1 r = (if isclose level (bid_price q) then str (bid_size q) else "") /\
    col3 r = (if isclose level (ask_price q) then str (ask_size q) else "").
Proof.
  unfold quote_cells. intros Hcells Hq. inv_bind.
  apply loc_Ok in Ha0. assert (a0 = q) as -> by congruence.
  exists a. subst r. simpl. auto.
Qed.

Lemma update_quote_row_cells (self : MarketData) (o : outcome unit) (q : Quote)
    (i : nat) :
  _update_quote self = Ok o ->
  _quotes_df self !! _quotes_row self = Some q ->
  (i < row_count (_config self))%nat ->
  exists level r,
    getitem (_price_ladder (self' o)) i = Ok level /\
    _price_ladder_df (self' o) !! i = Some r /\
    col1 r = (if isclose level (bid_price q) then str (bid_size q) else "") /\
    col3 r = (if isclose level (ask_price q) then str (ask_size q) else "").
Proof.
  intros H Hq Hi.
  destruct (update_quote_loop_row self o i H Hi) as (r0 & r & Hcells & Hr).
  destruct (quote_cells_sizes self _ i r0 r q Hcells Hq) as (level & Hlevel & H1 & H3).
  exists level, r. auto.
Qed.

(** * Main results *)

(** ** Merging the two streams *)

(** C1, as the code has it.  In every state where both streams have a record
    left and the next quote and the next trade carry the same time, a call
    that returns has applied the trade, not the quote (the test is
    [quote time < trade time]); and on a well-formed object, such as any
    reachable one, the call does return.  When both streams are in
    non-decreasing order of time, the replay from the initial state runs
    without raising and the sequence of records it applies is in
    non-decreasing order of time, with trades before quotes at equal times:
    a quote applied before a trade is strictly earlier. *)
Theorem tie_applies_trade_and_order :
  (forall self q t,
     _quotes_df self !! _quotes_row self = Some q ->
     _trades_df self !! _trades_row self = Some t ->
     q_time_value q = t_time_value t ->
     (forall o,
        get_next_price_ladder_df self = Ok o ->
        printed o = [TradeLine t] /\
        _quotes_row (self' o) = _quotes_row self /\
        _trades_row (self' o) = (_trades_row self + 1)%nat) /\
     (well_formed self -> exists o, get_next_price_ladder_df self = Ok o)) /\
  (forall config quotes_df trades_df n,
     (1 <= row_count config)%nat ->
     Sorted quote_le quotes_df ->
     Sorted trade_le trades_df ->
     exists evs self_n,
       replay n (__init__ config quotes_df trades_df) = Ok (evs, self_n) /\
       StronglySorted applied_before evs).
Proof.
  split.
  - intros self q t Hq Ht Heq.
    assert (Hnext : trade_is_next self).
    { split; [eapply lookup_lt_Some, Ht|]. right. exists q, t.
      repeat split; [assumption..|lia]. }
    rewrite (get_next_trade _ Hnext). split.
    + intros o H. inv_bind. subst o. simpl.
      apply update_trade_cursors in Ha as (t' & Ht' & -> & -> & -> & _).
      repeat split. congruence.
    + intros Hwf. destruct Hnext as [Hlt _].
      destruct (update_trade_total self Hwf Hlt) as [u ->]. simpl. eauto.
  - intros config quotes_df trades_df n Hrc Sq St.
    destruct (replay_total n (__init__ config quotes_df trades_df))
      as (evs & self_n & H & _); [apply well_formed_init | exact Hrc |].
    exists evs, self_n. split; [exact H|].
    eapply replay_sorted; [| |exact H]; simpl;
      apply Sorted_StronglySorted; try assumption; typeclasses eauto.
Qed.

Lemma tie_applies_trade_and_order_witness :
  (_quotes_df tie !! _quotes_row tie = Some tie_quote /\
   _trades_df tie !! _trades_row tie = Some tie_trade /\
   q_time_value tie_quote = t_time_value tie_trade /\
   well_formed tie /\
   let o := {| returned := Some (replicate 5 blank_row); self' := after 1 tie;
               printed := [TradeLine tie_trade] |} in
   get_next_price_ladder_df tie = Ok o /\
   printed o = [TradeLine tie_trade] /\
   _quotes_row (self' o) = _quotes_row tie /\
   _trades_row (self' o) = (_trades_row tie + 1)%nat) /\
  ((1 <= row_count sample_config)%nat /\
   Sorted quote_le sample_quotes /\
   Sorted trade_le sample_trades /\
   exists evs self_n,
     replay 5 sample = Ok (evs, self_n) /\
     StronglySorted applied_before evs).
Proof.
  destruct tie_applies_trade_and_order as [Htie Horder]. split.
  - assert (Hq : _quotes_df tie !! _quotes_row tie = Some tie_quote) by reflexivity.
    assert (Ht : _trades_df tie !! _trades_row tie = Some tie_trade) by reflexivity.
    assert (He : q_time_value tie_quote = t_time_value tie_trade) by reflexivity.
    split; [exact Hq|]. split; [exact Ht|]. split; [exact He|].
    split; [apply well_formed_init|]. intros o.
    assert (H : get_next_price_ladder_df tie = Ok o) by (vm_compute; reflexivity).
    split; [exact H|].
    destruct (Htie tie tie_quote tie_trade Hq Ht He) as [Happlied _].
    exact (Happlied o H).
  - assert (Hrc : (1 <= row_count sample_config)%nat) by (simpl; lia).
    assert (Sq : Sorted quote_le sample_quotes).
    { repeat constructor; unfold quote_le; simpl; lia. }
    assert (St : Sorted trade_le sample_trades).
    { repeat constructor; unfold trade_le; simpl; lia. }
    split; [exact Hrc|]. split; [exact Sq|]. split; [exact St|].
    exact (Horder sample_config sample_quotes sample_trades 5%nat Hrc Sq St).
Defined.

Lemma tie_applies_quote_counterexample :
  _quotes_df tie !! _quotes_row tie = Some tie_quote /\
  _trades_df tie !! _trades_row tie = Some tie_trade /\
  q_time_value tie_quote = t_time_value tie_trade /\
  (o <~ get_next_price_ladder_df tie ;;
   Ok (printed o, _quotes_row (self' o), _trades_row (self' o)))
  = Ok ([TradeLine tie_trade], 0%nat, 1%nat).
Proof. repeat split. Qed.

(** ** The price grid *)




(** C3, as the code has it.  When a quote is applied, the ladder is reset if
    and only if no quote has been processed yet, or the ask exceeds the top
    level by more than half a tick, or the bid is below the bottom level by
    more than half a tick, each comparison being the binary64 one of the
    source.  A reset leaves the [row_count] samples that [np.linspace]
    takes from [top = ask_price + tick_size * floor((row_count - 1) / 2)]
    to [bottom = top - (row_count - 1) * tick_size]: with two rows or more
    the last level is [bottom] itself and, unless the step
    [(bottom - top) / (row_count - 1)] is zero, level [i] above it is
    [i * step + top]; it labels column 2 with the levels and empties
    columns 0 and 4.  Otherwise the ladder and columns 0, 2 and 4 of every
    row are as before.  On a well-formed object with at least one row, such
    as any reachable one, the call returns. *)
Theorem update_quote_reset_iff (self : MarketData) (q : Quote) :
  _quotes_df self !! _quotes_row self = Some q ->
  let config := _config self in
  let rc := row_count config in
  let top :=
    (ask_price q + tick_size config * floor_half (Z.of_nat rc - 1))%float in
  let bottom := (top - float_of_Z (Z.of_nat rc - 1) * tick_size config)%float in
  let step := ((bottom - top) / float_of_Z (Z.of_nat rc - 1))%float in
  (forall o,
     _update_quote self = Ok o ->
     (quote_outside self q /\
      exists l,
        _price_ladder (self' o) = Some l /\
        l = linspace top bottom rc /\
        length l = rc /\
        ((2 <= rc)%nat -> last l = Some bottom) /\
        (forall i, (S i < rc)%nat -> (step =? 0)%float = false ->
           l !! i = Some (float_of_Z (Z.of_nat i) * step + top)%float) /\
        (forall i r, _price_ladder_df (self' o) !! i = Some r ->
           col0 r = "" /\ col4 r = "" /\
           exists level, l !! i = Some level /\ col2 r = price_format config level))
     \/
     (~ quote_outside self q /\
      _price_ladder (self' o) = _price_ladder self /\
      forall i r r',
        _price_ladder_df self !! i = Some r ->
        _price_ladder_df (self' o) !! i = Some r' ->
        col0 r' = col0 r /\ col2 r' = col2 r /\ col4 r' = col4 r)) /\
  (well_formed self -> (1 <= rc)%nat ->
   exists o, _update_quote self = Ok o).
Proof.
  intros Hq config rc top bottom step. split.
  - intros o H.
    apply update_quote_inv in H
      as (reset & ladder & df0 & df & q' & Hreset & Hgrid & Hloop & Hq' & ->).
    assert (q' = q) as -> by congruence. simpl.
    pose proof (outside_ladder_iff self q reset Hq Hreset) as Hiff.
    destruct (quote_loop_rows _ _ _ _ Hloop) as [Hlen Hrows].
    destruct reset.
    + left. split; [apply Hiff; reflexivity|].
      apply reset_price_ladder_inv in Hgrid as (q' & Hq'' & -> & _ & _ & Hdf0).
      assert (q' = q) as -> by congruence.
      exists (reset_ladder config q). split; [reflexivity|].
      split; [reflexivity|].
      split; [apply reset_ladder_length|].
      split; [intros Hrc; apply linspace_last, Hrc|].
      split; [intros i Hi Hstep; apply linspace_lookup; assumption|].
      intros i r Hr. destruct (Hrows i r Hr) as (r0 & Hr0 & Hcase).
      destruct (Hdf0 i r0 Hr0) as (level & Hlevel & ->).
      destruct Hcase as [->|Hcells].
      * simpl. eauto.
      * apply quote_cells_frame in Hcells as (-> & -> & ->). simpl. eauto.
    + right. destruct Hgrid as [-> ->]. split.
      * intros Hout. apply Hiff in Hout. discriminate.
      * split; [reflexivity|]. intros i r r' Hr Hr'.
        destruct (Hrows i r' Hr') as (r0 & Hr0 & Hcase).
        assert (r0 = r) as -> by congruence.
        destruct Hcase as [->|Hcells]; [auto|].
        apply quote_cells_frame in Hcells. exact Hcells.
  - intros Hwf Hrc. apply update_quote_total; try assumption.
    eapply lookup_lt_Some, Hq.
Qed.

Lemma update_quote_reset_iff_witness :
  let self := after 1 coarse in
  let q := {| q_time_value := 1; bid_price := 0.85; bid_size := 10;
              ask_price := 1; ask_size := 5 |} in
  let o := {| returned := tt; self' := after 2 coarse; printed := [QuoteLine q] |} in
  _quotes_df self !! _quotes_row self = Some q /\
  _update_quote self = Ok o /\
  quote_outside self q /\
  _price_ladder (self' o) = Some [1.1; 1; 0.9000000000000001]%float.
Proof.
  intros self q o.
  assert (Hq : _quotes_df self !! _quotes_row self = Some q) by reflexivity.
  assert (H : _update_quote self = Ok o) by (vm_compute; reflexivity).
  split; [exact Hq|]. split; [exact H|].
  destruct (update_quote_reset_iff self q Hq) as [Hcases _].
  destruct (Hcases o H) as [(Hout & l & Hl & -> & _)|(Hin & _)].
  - split; [exact Hout|]. rewrite Hl. vm_compute. reflexivity.
  - exfalso. apply Hin. right; right. eexists.
    split; vm_compute; reflexivity.
Defined.

(* The levels of a reset do not descend by the tick size.  On the sample's
   first ladder (five rows, tick 0.01, ask 100.01) the top level is
   ask + tick * 2, but the level of row 2 is neither the top less two ticks
   nor the ask, and rows 1 and 2 are not one tick apart. *)
Lemma ladder_descends_by_tick_counterexample :
  _price_ladder (after 1 sample)
  = Some [100.03; 100.02; 100.00999999999999; 100; 99.99]%float /\
  (top <~ getitem (_price_ladder (after 1 sample)) 0 ;;
   above <~ getitem (_price_ladder (after 1 sample)) 1 ;;
   level <~ getitem (_price_ladder (after 1 sample)) 2 ;;
   Ok ((top =? ask_price first_quote + tick_size sample_config * 2)%float,
       (level =? top - 2 * tick_size sample_config)%float,
       (level =? ask_price first_quote)%float,
       (above - level =? tick_size sample_config)%float))
  = Ok (true, false, false, false).
Proof. split; vm_compute; reflexivity. Qed.

(** ** Trades *)

(** C4, as the code has it.  A trade leaves a row whose level matches its
    price, but whose bid-size and ask-size cells are both empty, exactly as
    it was: the aggregates in columns 0 and 4 are kept, not cleared.  On a
    well-formed object, such as any reachable one, the call returns. *)
Theorem update_trade_unquoted_row_kept (self : MarketData) (i : nat)
    (level : float) (t : Trade) (r : Row) :
  getitem (_price_ladder self) i = Ok level ->
  _trades_df self !! _trades_row self = Some t ->
  isclose level (price t) = true ->
  _price_ladder_df self !! i = Some r ->
  col1 r = "" ->
  col3 r = "" ->
  (forall o, _update_trade self = Ok o ->
             _price_ladder_df (self' o) !! i = Some r) /\
  (well_formed self -> exists o, _update_trade self = Ok o).
Proof.
  intros Hlevel Ht Hclose Hr H1 H3. split.
  - intros o H. destruct (update_trade_rows self o H) as [_ Hrows].
    destruct (Hrows i r Hr) as (r' & Hr' & [->|Hcells]); [exact Hr'|].
    unfold trade_cells in Hcells. rewrite Hlevel in Hcells.
    apply loc_Ok in Ht. rewrite Ht in Hcells. simpl in Hcells.
    rewrite Hclose, H1, H3 in Hcells. simpl in Hcells. congruence.
  - intros Hwf. apply update_trade_total; [exact Hwf|].
    eapply lookup_lt_Some, Ht.
Qed.

Lemma update_trade_unquoted_row_kept_witness :
  let self := after 4 sample in
  let o := {| returned := tt; self' := after 5 sample;
              printed := [TradeLine third_trade] |} in
  (level <~ getitem (_price_ladder self) 3 ;;
   Ok (isclose level (price third_trade))) = Ok true /\
  _trades_df self !! _trades_row self = Some third_trade /\
  _price_ladder_df self !! 3%nat = Some aggregate_row /\
  well_formed self /\
  _update_trade self = Ok o /\
  _price_ladder_df (self' o) !! 3%nat = Some aggregate_row.
Proof.
  intros self o.
  assert (H : _update_trade self = Ok o) by (vm_compute; reflexivity).
  split; [vm_compute; reflexivity|]. split; [reflexivity|].
  split; [vm_compute; reflexivity|]. split; [apply sample_well_formed|].
  split; [exact H|].
  eapply (update_trade_unquoted_row_kept self 3 _ third_trade aggregate_row);
    [vm_compute; reflexivity..|exact H].
Defined.

Lemma update_trade_clears_unquoted_row_counterexample :
  let self := after 4 sample in
  reachable sample self /\
  (0 < _quotes_row self)%nat /\
  _trades_df self !! _trades_row self = Some third_trade /\
  (level <~ getitem (_price_ladder self) 3 ;;
   Ok (isclose level (price third_trade))) = Ok true /\
  _price_ladder_df self !! 3%nat = Some aggregate_row /\
  col1 aggregate_row = "" /\
  col3 aggregate_row = "" /\
  (o <~ _update_trade self ;; Ok (_price_ladder_df (self' o) !! 3%nat))
  = Ok (Some aggregate_row) /\
  col0 aggregate_row <> "".
Proof.
  intros self. split; [apply after_reachable|].
  split; [vm_compute; lia|].
  repeat (split; [vm_compute; reflexivity|]).
  discriminate.
Qed.

(** C9.  A trade applied before any quote (the quotes cursor is still 0)
    leaves the ladder and every cell of the frame as they are: the update
    succeeds, prints the trade, and the only attribute that changes is the
    trades cursor, which advances by one.  So does the call of
    [get_next_price_ladder_df] that applies it, which returns the frame
    unchanged. *)
Theorem update_trade_before_first_quote (self : MarketData) (t : Trade) :
  _quotes_row self = 0%nat ->
  _trades_df self !! _trades_row self = Some t ->
  let self_1 :=
    {| _config := _config self;
       _price_ladder := _price_ladder self;
       _price_ladder_df := _price_ladder_df self;
       _quotes_row := _quotes_row self;
       _trades_row := _trades_row self + 1;
       _quotes_df := _quotes_df self;
       _trades_df := _trades_df self |} in
  _update_trade self
  = Ok {| returned := tt; self' := self_1; printed := [TradeLine t] |} /\
  (trade_is_next self ->
   get_next_price_ladder_df self
   = Ok {| returned := Some (_price_ladder_df self); self' := self_1;
           printed := [TradeLine t] |}).
Proof.
  intros Hq Ht self_1.
  assert (H : _update_trade self
              = Ok {| returned := tt; self' := self_1; printed := [TradeLine t] |}).
  { unfold _update_trade.
    replace (0 <? _quotes_row self)%nat with false by (rewrite Hq; reflexivity).
    unfold iloc_row. rewrite Ht. reflexivity. }
  split; [exact H|].
  intros Hnext. rewrite (get_next_trade _ Hnext), H. reflexivity.
Qed.

Lemma update_trade_before_first_quote_witness :
  let t := {| t_time_value := 1; price := 100; volume := 3 |} in
  let self_1 :=
    {| _config := sample_config;
       _price_ladder := None;
       _price_ladder_df := replicate 5 blank_row;
       _quotes_row := 0;
       _trades_row := 1;
       _quotes_df := _quotes_df trade_first;
       _trades_df := _trades_df trade_first |} in
  _quotes_row trade_first = 0%nat /\
  _trades_df trade_first !! _trades_row trade_first = Some t /\
  _update_trade trade_first
  = Ok {| returned := tt; self' := self_1; printed := [TradeLine t] |} /\
  get_next_price_ladder_df trade_first
  = Ok {| returned := Some (replicate 5 blank_row); self' := self_1;
          printed := [TradeLine t] |}.
Proof.
  intros t self_1.
  assert (Hq : _quotes_row trade_first = 0%nat) by reflexivity.
  assert (Ht : _trades_df trade_first !! _trades_row trade_first = Some t)
    by reflexivity.
  split; [exact Hq|]. split; [exact Ht|].
  destruct (update_trade_before_first_quote trade_first t Hq Ht) as [Hupd Hnext].
  split; [exact Hupd|]. apply Hnext.
  split; [simpl; lia|]. right.
  eexists _, t. split; [reflexivity|]. split; [reflexivity|]. simpl. lia.
Defined.

(** C10.  A trade, applied in any state, leaves columns 1, 2 and 3 of every
    row, the number of rows, the price levels, the quotes cursor, the
    configuration and both streams unchanged; the trades cursor advances by
    one.  Only columns 0 and 4 can differ.  On a well-formed object with a
    trade left, such as any reachable one, the call returns. *)
Theorem update_trade_frame (self : MarketData) :
  (forall o,
     _update_trade self = Ok o ->
     _price_ladder (self' o) = _price_ladder self /\
     length (_price_ladder_df (self' o)) = length (_price_ladder_df self) /\
     (forall i r r',
        _price_ladder_df self !! i = Some r ->
        _price_ladder_df (self' o) !! i = Some r' ->
        col1 r' = col1 r /\ col2 r' = col2 r /\ col3 r' = col3 r) /\
     _quotes_row (self' o) = _quotes_row self /\
     _trades_row (self' o) = (_trades_row self + 1)%nat /\
     _config (self' o) = _config self /\
     _quotes_df (self' o) = _quotes_df self /\
     _trades_df (self' o) = _trades_df self) /\
  (well_formed self ->
   (_trades_row self < length (_trades_df self))%nat ->
   exists o, _update_trade self = Ok o).
Proof.
  split; [|apply update_trade_total].
  intros o H. destruct (update_trade_rows self o H) as [Hlen Hrows].
  apply update_trade_inv in H as (df & t & _ & _ & ->). simpl in *.
  repeat split; try reflexivity; try exact Hlen.
  all: destruct (Hrows i r H) as (s & Hs & [->|Hcells]);
    [congruence | apply trade_cells_frame in Hcells; replace r' with s by congruence;
                  tauto].
Qed.

Lemma update_trade_frame_witness :
  let self := after 1 sample in
  let o := {| returned := tt; self' := after 2 sample;
              printed := [TradeLine {| t_time_value := 1; price := 100; volume := 3 |}] |} in
  well_formed self /\
  (_trades_row self < length (_trades_df self))%nat /\
  _update_trade self = Ok o /\
  _price_ladder (self' o) = _price_ladder self /\
  length (_price_ladder_df (self' o)) = length (_price_ladder_df self) /\
  (forall i r r',
     _price_ladder_df self !! i = Some r ->
     _price_ladder_df (self' o) !! i = Some r' ->
     col1 r' = col1 r /\ col2 r' = col2 r /\ col3 r' = col3 r) /\
  _quotes_row (self' o) = _quotes_row self /\
  _trades_row (self' o) = (_trades_row self + 1)%nat /\
  _config (self' o) = _config self /\
  _quotes_df (self' o) = _quotes_df self /\
  _trades_df (self' o) = _trades_df self.
Proof.
  intros self o.
  assert (H : _update_trade self = Ok o) by (vm_compute; reflexivity).
  split; [apply sample_well_formed|]. split; [vm_compute; lia|].
  split; [exact H|].
  destruct (update_trade_frame self) as [Hframe _]. exact (Hframe o H).
Defined.

(** ** Invariant, errors and the end of the data *)

(** C8.  In every state reached from the initial one by calls of
    [get_next_price_ladder_df], each row of the frame has column 0 or
    column 4 empty: a row never shows a buy aggregate and a sell aggregate
    at once. *)
Theorem reachable_exclusive (config : Config) (quotes_df : list Quote)
    (trades_df : list Trade) (self : MarketData) :
  reachable (__init__ config quotes_df trades_df) self ->
  forall r, r ∈ _price_ladder_df self -> col0 r = "" \/ col4 r = "".
Proof.
  intros Hreach. apply Forall_forall. fold exclusive.
  induction Hreach as [|self o Hreach IH Hstep].
  - simpl. apply Forall_replicate. left. reflexivity.
  - apply get_next_inv in Hstep
      as [[_ ->]|[(_ & u & Hu & ->)|(_ & u & Hu & ->)]]; simpl.
    + exact IH.
    + eapply update_trade_exclusive; eassumption.
    + eapply update_quote_exclusive; eassumption.
Qed.

Lemma reachable_exclusive_witness :
  reachable sample (after 3 sample) /\
  forall r, r ∈ _price_ladder_df (after 3 sample) -> col0 r = "" \/ col4 r = "".
Proof.
  split; [apply after_reachable|].
  apply (reachable_exclusive sample_config sample_quotes sample_trades).
  apply (after_reachable sample).
Defined.

(** C5, as the code has it.  The engine has no check on the order of time
    stamps.  Whatever the two streams hold, in order or not, with at least
    one row no call raises; the records applied so far are, stream by
    stream, those before the cursor, in the order they are stored; and as
    many calls as there are records apply them all. *)
Theorem replay_applies_every_record (config : Config) (quotes_df : list Quote)
    (trades_df : list Trade) (n : nat) :
  (1 <= row_count config)%nat ->
  exists evs self_n,
    replay n (__init__ config quotes_df trades_df) = Ok (evs, self_n) /\
    quote_lines evs = take (_quotes_row self_n) quotes_df /\
    trade_lines evs = take (_trades_row self_n) trades_df /\
    ((length quotes_df + length trades_df <= n)%nat ->
     quote_lines evs = quotes_df /\ trade_lines evs = trades_df).
Proof.
  intros Hrc.
  destruct (replay_total n (__init__ config quotes_df trades_df))
    as (evs & self_n & H & _); [apply well_formed_init | exact Hrc |].
  exists evs, self_n. split; [exact H|].
  destruct (replay_lines _ _ _ _ H) as [Eq Et]. simpl in Eq, Et.
  split; [auto|]. split; [auto|].
  intros Hn. apply replay_progress in H as (Hq & Ht & Hsum); simpl in *; try lia.
  rewrite <- Eq, <- Et. split; apply take_ge; lia.
Qed.

Lemma replay_applies_every_record_witness :
  (1 <= row_count sample_config)%nat /\
  exists evs self_n,
    replay 2 out_of_order = Ok (evs, self_n) /\
    quote_lines evs = take (_quotes_row self_n) [late_quote; early_quote] /\
    trade_lines evs = take (_trades_row self_n) [] /\
    ((length [late_quote; early_quote] + length (@nil Trade) <= 2)%nat ->
     quote_lines evs = [late_quote; early_quote] /\ trade_lines evs = []).
Proof.
  assert (Hrc : (1 <= row_count sample_config)%nat) by (simpl; lia).
  split; [exact Hrc|].
  exact (replay_applies_every_record sample_config [late_quote; early_quote] []
           2 Hrc).
Defined.

Lemma out_of_order_fails_fast_counterexample :
  _quotes_df out_of_order = [late_quote; early_quote] /\
  (q_time_value early_quote < q_time_value late_quote)%Z /\
  replay 2 out_of_order
  = Ok ([QuoteLine late_quote; QuoteLine early_quote], after 2 out_of_order) /\
  _quotes_row (after 2 out_of_order) = 2%nat.
Proof.
  split; [reflexivity|]. split; [reflexivity|].
  split; vm_compute; reflexivity.
Qed.

(** C6, where the code departs from it.  When exactly one of the two streams
    is used up (or empty), [get_price_ladder_time_elapsed] returns no time:
    it reads the record at the cursor of both streams and the lookup past
    the end raises [KeyError]. *)
Theorem time_elapsed_one_stream_used_up (self : MarketData) :
  (length (_quotes_df self) <= _quotes_row self)%nat /\
  (_trades_row self < length (_trades_df self))%nat
  \/
  (_quotes_row self < length (_quotes_df self))%nat /\
  (length (_trades_df self) <= _trades_row self)%nat ->
  get_price_ladder_time_elapsed self = Raise KeyError.
Proof.
  unfold get_price_ladder_time_elapsed, loc.
  intros [[Hq Ht]|[Hq Ht]].
  - assert (Hp : past_end (_trades_row self) (_trades_df self) = false)
      by (apply past_end_false, Ht).
    rewrite Hp, andb_false_r.
    destruct (_quotes_df self !! 0%nat); [simpl|reflexivity].
    destruct (_trades_df self !! 0%nat); [simpl|reflexivity].
    rewrite (lookup_ge_None_2 _ _ Hq). reflexivity.
  - assert (Hp : past_end (_quotes_row self) (_quotes_df self) = false)
      by (apply past_end_false, Hq).
    rewrite Hp. simpl.
    destruct (_quotes_df self !! 0%nat); [simpl|reflexivity].
    destruct (_trades_df self !! 0%nat); [simpl|reflexivity].
    destruct (_quotes_df self !! _quotes_row self); [simpl|reflexivity].
    rewrite (lookup_ge_None_2 _ _ Ht). reflexivity.
Qed.

Lemma time_elapsed_one_stream_used_up_witness :
  let self := after 4 sample in
  reachable sample self /\
  _quotes_row self = 2%nat /\ length (_quotes_df self) = 2%nat /\
  _trades_row self = 2%nat /\ length (_trades_df self) = 3%nat /\
  get_price_ladder_time_elapsed self = Raise KeyError.
Proof.
  intros self. split; [apply after_reachable|].
  repeat (split; [reflexivity|]).
  apply (time_elapsed_one_stream_used_up self).
  left. vm_compute. split; [reflexivity|]. apply le_n.
Defined.

(** C7.  In a state reached from the initial one, [get_next_price_ladder_df]
    returns [None] exactly when both cursors equal the lengths of their
    streams; and once it has returned [None], the object is unchanged and
    every later call, however many come before it, returns [None] again and
    changes and prints nothing. *)
Theorem get_next_None_iff (config : Config) (quotes_df : list Quote)
    (trades_df : list Trade) (self : MarketData) :
  reachable (__init__ config quotes_df trades_df) self ->
  ((exists o, get_next_price_ladder_df self = Ok o /\ returned o = None) <->
   _quotes_row self = length (_quotes_df self) /\
   _trades_row self = length (_trades_df self)) /\
  (forall o,
     get_next_price_ladder_df self = Ok o ->
     returned o = None ->
     self' o = self /\
     forall later,
       reachable self later ->
       later = self /\
       get_next_price_ladder_df later =
       Ok {| returned := None; self' := later; printed := [] |}).
Proof.
  intros Hreach.
  apply reachable_cursors in Hreach as (_ & _ & _ & Hq & Ht); simpl; try lia.
  split; [split|].
  - intros (o & Ho & Hnone).
    apply get_next_inv in Ho as [[[Hq' Ht'] _]|[(_ & u & _ & ->)|(_ & u & _ & ->)]];
      [lia | discriminate | discriminate].
  - intros [Eq Et]. eexists. split.
    + apply get_next_at_end. unfold at_end. lia.
    + reflexivity.
  - intros o Ho Hnone.
    apply get_next_inv in Ho as [[Hend ->]|[(_ & u & _ & ->)|(_ & u & _ & ->)]];
      [|discriminate|discriminate].
    split; [reflexivity|]. intros later Hlater.
    assert (E : later = self).
    { induction Hlater as [|s o' Hs IH Hstep]; [reflexivity|].
      subst s. rewrite (get_next_at_end _ Hend) in Hstep.
      injection Hstep as <-. reflexivity. }
    subst later. split; [reflexivity | apply get_next_at_end, Hend].
Qed.

Lemma get_next_None_iff_witness :
  let self := after 5 sample in
  reachable sample self /\
  ((exists o, get_next_price_ladder_df self = Ok o /\ returned o = None) <->
   _quotes_row self = length (_quotes_df self) /\
   _trades_row self = length (_trades_df self)) /\
  (forall o,
     get_next_price_ladder_df self = Ok o ->
     returned o = None ->
     self' o = self /\
     forall later,
       reachable self later ->
       later = self /\
       get_next_price_ladder_df later =
       Ok {| returned := None; self' := later; printed := [] |}).
Proof.
  intros self. split; [apply after_reachable|].
  apply (get_next_None_iff sample_config sample_quotes sample_trades self).
  apply (after_reachable sample).
Defined.

(** * Further properties of the engine *)

(** ** One record per call *)

(** X1.  A call of [get_next_price_ladder_df] that returns never changes the
    configuration or either stream, and it does exactly one of three things:
    at the end of the data it returns [None], prints nothing and leaves the
    object as it is; or it consumes the quote at the quotes cursor; or it
    consumes the trade at the trades cursor.  A consumed record is printed,
    its cursor advances by one, the other cursor stays, and the frame is
    returned. *)
Theorem get_next_consumes_one (self : MarketData)
    (o : outcome (option DataFrame)) :
  get_next_price_ladder_df self = Ok o ->
  _config (self' o) = _config self /\
  _quotes_df (self' o) = _quotes_df self /\
  _trades_df (self' o) = _trades_df self /\
  ((at_end self /\ returned o = None /\ self' o = self /\ printed o = [])
   \/
   (quote_is_next self /\
    exists q,
      _quotes_df self !! _quotes_row self = Some q /\
      printed o = [QuoteLine q] /\
      _quotes_row (self' o) = (_quotes_row self + 1)%nat /\
      _trades_row (self' o) = _trades_row self /\
      returned o = Some (_price_ladder_df (self' o)))
   \/
   (trade_is_next self /\
    exists t,
      _trades_df self !! _trades_row self = Some t /\
      printed o = [TradeLine t] /\
      _trades_row (self' o) = (_trades_row self + 1)%nat /\
      _quotes_row (self' o) = _quotes_row self /\
      returned o = Some (_price_ladder_df (self' o)))).
Proof.
  intros H. pose proof (get_next_streams _ _ H) as (Eq & Et & Ec).
  split; [exact Ec|]. split; [exact Eq|]. split; [exact Et|].
  apply get_next_inv in H
    as [[Hend ->]|[(Hnext & u & Hu & ->)|(Hnext & u & Hu & ->)]]; simpl.
  - left. auto.
  - right; right. split; [exact Hnext|].
    apply update_trade_cursors in Hu as (t & Ht & Ep & Eq' & Et' & _).
    exists t. auto.
  - right; left. split; [exact Hnext|].
    apply update_quote_cursors in Hu as (q & Hq & Ep & Eq' & Et' & _).
    exists q. auto.
Qed.

Lemma get_next_consumes_one_witness :
  let o := {| returned := Some (_price_ladder_df (after 2 sample));
              self' := after 2 sample;
              printed := [TradeLine {| t_time_value := 1; price := 100;
                                       volume := 3 |}] |} in
  get_next_price_ladder_df (after 1 sample) = Ok o /\
  _quotes_row (self' o) = 1%nat /\ _trades_row (self' o) = 1%nat /\
  _quotes_df (self' o) = sample_quotes /\ _trades_df (self' o) = sample_trades.
Proof.
  intros o.
  assert (H : get_next_price_ladder_df (after 1 sample) = Ok o)
    by (vm_compute; reflexivity).
  split; [exact H|].
  destruct (get_next_consumes_one _ _ H) as (_ & Eq & Et & _).
  split; [reflexivity|]. split; [reflexivity|]. split; [exact Eq | exact Et].
Defined.

(** ** Where a quote puts its sizes *)

(** X2.  After a quote is applied, every row of the ladder shows the quote
    and nothing older in its size cells: column 1 holds [str(bid_size)] if
    the row's level is close to the bid price and is empty otherwise, and
    column 3 holds [str(ask_size)] if the level is close to the ask price
    and is empty otherwise. *)
Theorem update_quote_places_sizes (self : MarketData) (o : outcome unit)
    (q : Quote) (i : nat) :
  _update_quote self = Ok o ->
  _quotes_df self !! _quotes_row self = Some q ->
  (i < row_count (_config self))%nat ->
  exists level r,
    getitem (_price_ladder (self' o)) i = Ok level /\
    _price_ladder_df (self' o) !! i = Some r /\
    col1 r = (if isclose level (bid_price q) then str (bid_size q) else "") /\
    col3 r = (if isclose level (ask_price q) then str (ask_size q) else "").
Proof.
  intros H Hq Hi.
  destruct (update_quote_loop_row self o i H Hi) as (r0 & r & Hcells & Hr).
  destruct (quote_cells_sizes self _ i r0 r q Hcells Hq) as (level & Hlevel & H1 & H3).
  exists level, r. auto.
Qed.

Lemma update_quote_places_sizes_witness :
  let self := after 3 sample in
  let q := {| q_time_value := 3; bid_price := 99.99; bid_size := 10;
              ask_price := 100.01; ask_size := 5 |} in
  let o := {| returned := tt; self' := after 4 sample; printed := [QuoteLine q] |} in
  _update_quote self = Ok o /\
  _quotes_df self !! _quotes_row self = Some q /\
  (3 < row_count (_config self))%nat /\
  exists level r,
    getitem (_price_ladder (self' o)) 3 = Ok level /\
    _price_ladder_df (self' o) !! 3%nat = Some r /\
    col1 r = (if isclose level (bid_price q) then str (bid_size q) else "") /\
    col3 r = (if isclose level (ask_price q) then str (ask_size q) else "").
Proof.
  intros self q o.
  assert (H : _update_quote self = Ok o) by (vm_compute; reflexivity).
  assert (Hq : _quotes_df self !! _quotes_row self = Some q) by reflexivity.
  assert (Hi : (3 < row_count (_config self))%nat) by (vm_compute; lia).
  split; [exact H|]. split; [exact Hq|]. split; [exact Hi|].
  exact (update_quote_places_sizes self o q 3 H Hq Hi).
Defined.

(** ** What a trade does to each row *)

(** X4.  Aggregation.  After at least one quote, a trade whose price is
    close to the level of a row adds its volume to that row: where a bid
    size is shown (whether or not an ask size is shown too) column 0 becomes
    [str(volume)], or the int64 sum of [volume] and [previous] if it held
    [str(previous)], and column 4 is emptied; where only an ask size is
    shown the same happens in column 4 and column 0 is emptied.  The sum is
    the one numpy computes: it wraps around at 2^63.  The other three columns
    stay. *)
Theorem update_trade_aggregates (self : MarketData) (o : outcome unit)
    (i : nat) (level : float) (t : Trade) (r : Row) :
  _update_trade self = Ok o ->
  (0 < _quotes_row self)%nat ->
  (i < row_count (_config self))%nat ->
  getitem (_price_ladder self) i = Ok level ->
  _trades_df self !! _trades_row self = Some t ->
  isclose level (price t) = true ->
  _price_ladder_df self !! i = Some r ->
  (col1 r <> "" ->
   (col0 r = "" ->
    _price_ladder_df (self' o) !! i
    = Some {| col0 := str (volume t); col1 := col1 r; col2 := col2 r;
              col3 := col3 r; col4 := "" |}) /\
   (forall previous, col0 r = str previous ->
    _price_ladder_df (self' o) !! i
    = Some {| col0 := str (wrap_int64 (volume t + previous)); col1 := col1 r;
              col2 := col2 r; col3 := col3 r; col4 := "" |})) /\
  (col1 r = "" -> col3 r <> "" ->
   (col4 r = "" ->
    _price_ladder_df (self' o) !! i
    = Some {| col0 := ""; col1 := col1 r; col2 := col2 r; col3 := col3 r;
              col4 := str (volume t) |}) /\
   (forall previous, col4 r = str previous ->
    _price_ladder_df (self' o) !! i
    = Some {| col0 := ""; col1 := col1 r; col2 := col2 r; col3 := col3 r;
              col4 := str (wrap_int64 (volume t + previous)) |})).
Proof.
  intros H Hq Hi Hlevel Ht Hclose Hr.
  destruct (update_trade_row_cells self o i H Hq Hi) as (s & r' & Hs & Hcells & Hr').
  assert (s = r) as -> by congruence.
  split.
  - intros H1. split.
    + intros E0.
      rewrite (trade_cells_bid self i level t r (volume t)) in Hcells;
        try assumption; [congruence | rewrite E0; apply aggregate_empty].
    + intros previous E0.
      rewrite (trade_cells_bid self i level t r
                 (wrap_int64 (volume t + previous))) in Hcells;
        try assumption; [congruence | rewrite E0; apply aggregate_str].
  - intros H1 H3. split.
    + intros E4.
      rewrite (trade_cells_ask self i level t r (volume t)) in Hcells;
        try assumption; [congruence | rewrite E4; apply aggregate_empty].
    + intros previous E4.
      rewrite (trade_cells_ask self i level t r
                 (wrap_int64 (volume t + previous))) in Hcells;
        try assumption; [congruence | rewrite E4; apply aggregate_str].
Qed.

Lemma update_trade_aggregates_witness :
  let self := after 2 sample in
  let t := {| t_time_value := 2; price := 100; volume := 2 |} in
  let r := {| col0 := "3"; col1 := "10"; col2 := "px"; col3 := ""; col4 := "" |} in
  let o := {| returned := tt; self' := after 3 sample; printed := [TradeLine t] |} in
  _update_trade self = Ok o /\
  (0 < _quotes_row self)%nat /\
  (3 < row_count (_config self))%nat /\
  _trades_df self !! _trades_row self = Some t /\
  _price_ladder_df self !! 3%nat = Some r /\
  col0 r = str 3 /\
  _price_ladder_df (self' o) !! 3%nat
  = Some {| col0 := str (wrap_int64 (2 + 3)); col1 := "10"; col2 := "px";
            col3 := ""; col4 := "" |}.
Proof.
  intros self t r o.
  assert (H : _update_trade self = Ok o) by (vm_compute; reflexivity).
  assert (Hq : (0 < _quotes_row self)%nat) by (vm_compute; lia).
  assert (Hi : (3 < row_count (_config self))%nat) by (vm_compute; lia).
  assert (Ht : _trades_df self !! _trades_row self = Some t) by reflexivity.
  assert (Hr : _price_ladder_df self !! 3%nat = Some r) by (vm_compute; reflexivity).
  split; [exact H|]. split; [exact Hq|]. split; [exact Hi|]. split; [exact Ht|].
  split; [exact Hr|]. split; [reflexivity|].
  eapply (update_trade_aggregates self o 3 _ t r H Hq Hi);
    [vm_compute; reflexivity | exact Ht | vm_compute; reflexivity | exact Hr
    | discriminate | reflexivity].
Defined.

(** X5.  After at least one quote, a trade empties the aggregates of every
    row of the ladder whose level is not close to its price.  So once a
    trade has been applied, a row that shows an aggregate, in column 0 or in
    column 4, is a row at the price of that trade. *)
Theorem update_trade_clears_other_rows (self : MarketData) (o : outcome unit)
    (t : Trade) (i : nat) :
  _update_trade self = Ok o ->
  (0 < _quotes_row self)%nat ->
  _trades_df self !! _trades_row self = Some t ->
  (i < row_count (_config self))%nat ->
  exists level r',
    getitem (_price_ladder self) i = Ok level /\
    _price_ladder_df (self' o) !! i = Some r' /\
    (isclose level (price t) = false -> col0 r' = "" /\ col4 r' = "") /\
    (col0 r' <> "" \/ col4 r' <> "" -> isclose level (price t) = true).
Proof.
  intros H Hq Ht Hi.
  destruct (update_trade_row_cells self o i H Hq Hi) as (r & r' & Hr & Hcells & Hr').
  assert (Hlevel : exists level, getitem (_price_ladder self) i = Ok level).
  { unfold trade_cells in Hcells. inv_bind. eauto. }
  destruct Hlevel as [level Hlevel]. exists level, r'.
  split; [exact Hlevel|]. split; [exact Hr'|].
  assert (Hmiss : isclose level (price t) = false -> col0 r' = "" /\ col4 r' = "").
  { intros Hclose.
    rewrite (trade_cells_miss self i level t r Hlevel Ht Hclose) in Hcells.
    injection Hcells as <-. simpl. auto. }
  split; [exact Hmiss|].
  intros Hshown. destruct (isclose level (price t)); [reflexivity|].
  destruct (Hmiss eq_refl) as [E0 E4]. destruct Hshown; contradiction.
Qed.

Lemma update_trade_clears_other_rows_witness :
  let self := after 4 sample in
  let o := {| returned := tt; self' := after 5 sample;
              printed := [TradeLine third_trade] |} in
  _update_trade self = Ok o /\
  (0 < _quotes_row self)%nat /\
  _trades_df self !! _trades_row self = Some third_trade /\
  (4 < row_count (_config self))%nat /\
  exists level r',
    getitem (_price_ladder self) 4 = Ok level /\
    _price_ladder_df (self' o) !! 4%nat = Some r' /\
    (isclose level (price third_trade) = false -> col0 r' = "" /\ col4 r' = "") /\
    (col0 r' <> "" \/ col4 r' <> "" -> isclose level (price third_trade) = true).
Proof.
  intros self o.
  assert (H : _update_trade self = Ok o) by (vm_compute; reflexivity).
  assert (Hq : (0 < _quotes_row self)%nat) by (vm_compute; lia).
  assert (Ht : _trades_df self !! _trades_row self = Some third_trade)
    by reflexivity.
  assert (Hi : (4 < row_count (_config self))%nat) by (vm_compute; lia).
  split; [exact H|]. split; [exact Hq|]. split; [exact Ht|]. split; [exact Hi|].
  exact (update_trade_clears_other_rows self o third_trade 4 H Hq Ht Hi).
Defined.

(** X6.  Consecutive trades add up.  When two trades in a row are applied
    at the price of a row that shows a bid size and no aggregate yet, the
    row shows the int64 sum of the two volumes in column 0 after the second
    (the sum numpy computes, which wraps around at 2^63), and an empty
    column 4. *)
Theorem two_trades_add_up (self : MarketData) (o1 o2 : outcome unit)
    (i : nat) (level : float) (t1 t2 : Trade) (r : Row) :
  _update_trade self = Ok o1 ->
  _update_trade (self' o1) = Ok o2 ->
  (0 < _quotes_row self)%nat ->
  (i < row_count (_config self))%nat ->
  getitem (_price_ladder self) i = Ok level ->
  _trades_df self !! _trades_row self = Some t1 ->
  _trades_df self !! (_trades_row self + 1)%nat = Some t2 ->
  isclose level (price t1) = true ->
  isclose level (price t2) = true ->
  _price_ladder_df self !! i = Some r ->
  col1 r <> "" ->
  col0 r = "" ->
  _price_ladder_df (self' o2) !! i
  = Some {| col0 := str (wrap_int64 (volume t2 + volume t1)); col1 := col1 r;
            col2 := col2 r; col3 := col3 r; col4 := "" |}.
Proof.
  intros H1 H2 Hq Hi Hlevel Ht1 Ht2 Hc1 Hc2 Hr Hbid H0.
  destruct (update_trade_state self o1 H1) as (El & Ec & Eq & Et & Ets & _).
  destruct (update_trade_row_cells self o1 i H1 Hq Hi)
    as (s & r1 & Hs & Hcells1 & Hr1).
  assert (s = r) as -> by congruence.
  rewrite (trade_cells_bid self i level t1 r (volume t1)) in Hcells1;
    try assumption; [|rewrite H0; apply aggregate_empty].
  injection Hcells1 as <-.
  destruct (update_trade_row_cells (self' o1) o2 i H2)
    as (s & r2 & Hs1 & Hcells2 & Hr2);
    [rewrite Eq; exact Hq | rewrite Ec; exact Hi |].
  rewrite Hr1 in Hs1. injection Hs1 as <-.
  rewrite (trade_cells_bid (self' o1) i level t2 _
             (wrap_int64 (volume t2 + volume t1)))
    in Hcells2.
  - simpl in Hcells2. congruence.
  - rewrite El. exact Hlevel.
  - rewrite Ets, Et. exact Ht2.
  - exact Hc2.
  - simpl. exact Hbid.
  - simpl. apply aggregate_str.
Qed.

Lemma two_trades_add_up_witness :
  let self := after 1 sample in
  let t1 := {| t_time_value := 1; price := 100; volume := 3 |} in
  let t2 := {| t_time_value := 2; price := 100; volume := 2 |} in
  let r := {| col0 := ""; col1 := "10"; col2 := "px"; col3 := ""; col4 := "" |} in
  let o1 := {| returned := tt; self' := after 2 sample; printed := [TradeLine t1] |} in
  let o2 := {| returned := tt; self' := after 3 sample; printed := [TradeLine t2] |} in
  _update_trade self = Ok o1 /\
  _update_trade (self' o1) = Ok o2 /\
  _price_ladder_df self !! 3%nat = Some r /\
  _price_ladder_df (self' o2) !! 3%nat
  = Some {| col0 := str (wrap_int64 (2 + 3)); col1 := "10"; col2 := "px";
            col3 := ""; col4 := "" |}.
Proof.
  intros self t1 t2 r o1 o2.
  assert (H1 : _update_trade self = Ok o1) by (vm_compute; reflexivity).
  assert (H2 : _update_trade (self' o1) = Ok o2) by (vm_compute; reflexivity).
  assert (Hr : _price_ladder_df self !! 3%nat = Some r) by (vm_compute; reflexivity).
  split; [exact H1|]. split; [exact H2|]. split; [exact Hr|].
  eapply (two_trades_add_up self o1 o2 3 _ t1 t2 r H1 H2);
    [vm_compute; lia | vm_compute; lia | vm_compute; reflexivity
    | reflexivity | reflexivity | vm_compute; reflexivity
    | vm_compute; reflexivity | exact Hr | discriminate | reflexivity].
Defined.

(** ** The grid of a reachable state *)

Lemma reachable_grid_inv (config : Config) (quotes_df : list Quote)
    (trades_df : list Trade) (self : MarketData) :
  reachable (__init__ config quotes_df trades_df) self ->
  (_config self = config /\ _quotes_df self = quotes_df) /\
  length (_price_ladder_df self) = row_count config /\
  (_quotes_row self = 0%nat ->
   _price_ladder self = None /\
   _price_ladder_df self = replicate (row_count config) blank_row) /\
  ((0 < _quotes_row self)%nat ->
   exists k q,
     (k < _quotes_row self)%nat /\
     quotes_df !! k = Some q /\
     _price_ladder self = Some (reset_ladder config q) /\
     forall i r,
       _price_ladder_df self !! i = Some r ->
       exists level,
         reset_ladder config q !! i = Some level /\
         col2 r = price_format config level).
Proof.
  induction 1 as [|self o Hreach IH Hstep].
  - simpl. split; [auto|]. split; [apply length_replicate|].
    split; [auto | lia].
  - destruct IH as ([Ec Eq] & Hlen & Hzero & Hpos).
    apply get_next_inv in Hstep
      as [[_ ->]|[(_ & u & Hu & ->)|(_ & u & Hu & ->)]]; simpl.
    + auto.
    + pose proof (update_trade_rows _ _ Hu) as [Hlen' _].
      pose proof (update_trade_rows_back _ _ Hu) as Hback.
      pose proof (update_trade_inv _ _ Hu) as (df & t & Hdf & _ & Eu).
      destruct (update_trade_state _ _ Hu) as (El & Ec' & Eq' & _ & _ & Eqs).
      rewrite El, Ec', Eq', Eqs, Hlen'.
      split; [auto|]. split; [exact Hlen|]. split.
      * intros E0. destruct (Hzero E0) as [Hnone Hblank]. split; [exact Hnone|].
        rewrite E0 in Hdf. simpl in Hdf. subst u df. simpl. exact Hblank.
      * intros Hq. destruct (Hpos Hq) as (k & q & Hk & Hlook & Hl & Hrows).
        exists k, q. repeat split; try assumption.
        intros i r' Hr'. destruct (Hback i r' Hr') as (r & Hr & Hcase).
        destruct (Hrows i r Hr) as (level & Hlevel & Hlabel).
        exists level. split; [exact Hlevel|].
        destruct Hcase as [->|Hcells]; [exact Hlabel|].
        apply trade_cells_frame in Hcells as (_ & -> & _). exact Hlabel.
    + apply update_quote_inv in Hu
        as (reset & ladder & df0 & df & q & Hreset & Hgrid & Hloop & Hq & ->).
      simpl. destruct (quote_loop_rows _ _ _ _ Hloop) as [Hlen' Hrows'].
      split; [auto|].
      assert (Hgrid' :
        length df0 = row_count config /\
        exists k q',
          (k < _quotes_row self + 1)%nat /\
          quotes_df !! k = Some q' /\
          ladder = Some (reset_ladder config q') /\
          forall i r0,
            df0 !! i = Some r0 ->
            exists level,
              reset_ladder config q' !! i = Some level /\
              col2 r0 = price_format config level).
      { destruct reset.
        - apply reset_price_ladder_inv in Hgrid
            as (q' & Hq' & -> & _ & Hl0 & Hdf0).
          rewrite Ec in *. split; [exact Hl0|].
          exists (_quotes_row self), q'. split; [lia|].
          split; [congruence|]. split; [reflexivity|].
          intros i r0 Hr0. destruct (Hdf0 i r0 Hr0) as (level & Hlevel & ->).
          exists level. split; [exact Hlevel | reflexivity].
        - destruct Hgrid as [-> ->]. split; [exact Hlen|].
          assert (Hq0 : (0 < _quotes_row self)%nat).
          { unfold outside_ladder in Hreset.
            destruct (_quotes_row self =? 0)%nat eqn:E0; [discriminate|].
            apply Nat.eqb_neq in E0. lia. }
          destruct (Hpos Hq0) as (k & q' & Hk & Hlook & Hl & Hrows).
          exists k, q'. split; [lia|]. auto. }
      destruct Hgrid' as (Hl0 & k & q' & Hk & Hlook & -> & Hrows0).
      split; [lia|]. split; [lia|]. intros _.
      exists k, q'. split; [exact Hk|]. split; [exact Hlook|].
      split; [reflexivity|].
      intros i r Hr. destruct (Hrows' i r Hr) as (r0 & Hr0 & Hcase).
      destruct (Hrows0 i r0 Hr0) as (level & Hlevel & Hlabel).
      exists level. split; [exact Hlevel|].
      destruct Hcase as [->|Hcells]; [exact Hlabel|].
      apply quote_cells_frame in Hcells as (_ & -> & _). exact Hlabel.
Qed.

(** X7.  The grid of every reachable state.  The frame always has
    [row_count] rows.  Until the first quote is applied there is no ladder
    and every cell is empty, whatever trades have been replayed.  From then
    on the ladder is the one a reset builds on some quote already applied,
    and column 2 of each row is the formatted level of that row. *)
Theorem reachable_grid (config : Config) (quotes_df : list Quote)
    (trades_df : list Trade) (self : MarketData) :
  reachable (__init__ config quotes_df trades_df) self ->
  length (_price_ladder_df self) = row_count config /\
  (_quotes_row self = 0%nat ->
   _price_ladder self = None /\
   _price_ladder_df self = replicate (row_count config) blank_row) /\
  ((0 < _quotes_row self)%nat ->
   exists k q,
     (k < _quotes_row self)%nat /\
     quotes_df !! k = Some q /\
     _price_ladder self = Some (reset_ladder config q) /\
     forall i r,
       _price_ladder_df self !! i = Some r ->
       exists level,
         reset_ladder config q !! i = Some level /\
         col2 r = price_format config level).
Proof.
  intros H.
  destruct (reachable_grid_inv config quotes_df trades_df self H)
    as (_ & Hlen & Hzero & Hpos).
  split; [exact Hlen|]. split; [exact Hzero | exact Hpos].
Qed.

Lemma reachable_grid_witness :
  let self := after 4 sample in
  reachable sample self /\
  length (_price_ladder_df self) = 5%nat /\
  exists k q,
    (k < _quotes_row self)%nat /\
    sample_quotes !! k = Some q /\
    _price_ladder self = Some (reset_ladder sample_config q).
Proof.
  intros self.
  assert (Hreach : reachable sample self) by apply after_reachable.
  split; [exact Hreach|].
  destruct (reachable_grid sample_config sample_quotes sample_trades self Hreach)
    as (Hlen & _ & Hpos).
  split; [exact Hlen|].
  destruct Hpos as (k & q & Hk & Hq & Hl & _); [vm_compute; lia|].
  exists k, q. auto.
Defined.

(** ** The time of the next update *)

Lemma time_elapsed_inv (self : MarketData) (d : Z) :
  get_price_ladder_time_elapsed self = Ok d ->
  (at_end self /\ d = 0%Z) \/
  exists q0 t0 q t,
    _quotes_df self !! 0%nat = Some q0 /\
    _trades_df self !! 0%nat = Some t0 /\
    _quotes_df self !! _quotes_row self = Some q /\
    _trades_df self !! _trades_row self = Some t /\
    d = (Z.min (q_time_value q) (t_time_value t)
         - Z.min (q_time_value q0) (t_time_value t0))%Z.
Proof.
  unfold get_price_ladder_time_elapsed.
  destruct (past_end (_quotes_row self) (_quotes_df self)
            && past_end (_trades_row self) (_trades_df self)) eqn:E.
  - intros [= <-]. left. apply andb_true_iff in E as [Eq Et].
    apply past_end_true in Eq, Et. split; [split; assumption | reflexivity].
  - intros H. inv_bind. apply loc_Ok in Ha, Ha0, Ha1, Ha2.
    right. exists a, a0, a1, a2. auto.
Qed.

Lemma sorted_quotes_lookup (l : list Quote) (i j : nat) (x y : Quote) :
  Sorted quote_le l -> (i <= j)%nat ->
  l !! i = Some x -> l !! j = Some y ->
  (q_time_value x <= q_time_value y)%Z.
Proof.
  intros Hs. apply (StronglySorted_lookup_le quote_le).
  apply Sorted_StronglySorted; [typeclasses eauto | exact Hs].
Qed.

Lemma sorted_trades_lookup (l : list Trade) (i j : nat) (x y : Trade) :
  Sorted trade_le l -> (i <= j)%nat ->
  l !! i = Some x -> l !! j = Some y ->
  (t_time_value x <= t_time_value y)%Z.
Proof.
  intros Hs. apply (StronglySorted_lookup_le trade_le).
  apply Sorted_StronglySorted; [typeclasses eauto | exact Hs].
Qed.

(** X8.  While both streams have a record left,
    [get_price_ladder_time_elapsed] returns the time of the record that the
    next call of [get_next_price_ladder_df] applies, counted from the
    earlier of the two first records; on streams in order of time it is
    never negative. *)
Theorem time_elapsed_is_next_record (self : MarketData) :
  (_quotes_row self < length (_quotes_df self))%nat ->
  (_trades_row self < length (_trades_df self))%nat ->
  exists q0 t0 d,
    _quotes_df self !! 0%nat = Some q0 /\
    _trades_df self !! 0%nat = Some t0 /\
    get_price_ladder_time_elapsed self = Ok d /\
    (forall o,
       get_next_price_ladder_df self = Ok o ->
       exists e,
         printed o = [e] /\
         d = (time_of e - Z.min (q_time_value q0) (t_time_value t0))%Z) /\
    (Sorted quote_le (_quotes_df self) ->
     Sorted trade_le (_trades_df self) ->
     (0 <= d)%Z).
Proof.
  intros Hq Ht.
  destruct (lookup_lt_is_Some_2 _ _ Hq) as [q Hq'].
  destruct (lookup_lt_is_Some_2 _ _ Ht) as [t Ht'].
  destruct (lookup_lt_is_Some_2 (_quotes_df self) 0) as [q0 Hq0]; [lia|].
  destruct (lookup_lt_is_Some_2 (_trades_df self) 0) as [t0 Ht0]; [lia|].
  exists q0, t0. eexists. split; [exact Hq0|]. split; [exact Ht0|].
  split; [apply (time_elapsed_both_pending self q0 q t0 t); assumption|].
  split.
  - intros o Ho. apply get_next_inv in Ho
      as [[[Hend _] _]|[([_ Hnext] & u & Hu & ->)|([_ Hnext] & u & Hu & ->)]];
      simpl; [lia | |].
    + apply update_trade_cursors in Hu as (t' & Ht'' & -> & _).
      assert (t' = t) as -> by congruence.
      exists (TradeLine t). split; [reflexivity|]. simpl.
      destruct Hnext as [Hend|(q1 & t1 & Hq1 & Ht1 & Hle)]; [lia|].
      assert (q1 = q) as -> by congruence.
      assert (t1 = t) as -> by congruence.
      rewrite Z.min_r by exact Hle. reflexivity.
    + apply update_quote_cursors in Hu as (q' & Hq'' & -> & _).
      assert (q' = q) as -> by congruence.
      exists (QuoteLine q). split; [reflexivity|]. simpl.
      destruct Hnext as [Hend|(q1 & t1 & Hq1 & Ht1 & Hlt)]; [lia|].
      assert (q1 = q) as -> by congruence.
      assert (t1 = t) as -> by congruence.
      rewrite Z.min_l by lia. reflexivity.
  - intros Sq St.
    pose proof (sorted_quotes_lookup _ 0 _ q0 q Sq (Nat.le_0_l _) Hq0 Hq').
    pose proof (sorted_trades_lookup _ 0 _ t0 t St (Nat.le_0_l _) Ht0 Ht').
    lia.
Qed.

Lemma time_elapsed_is_next_record_witness :
  let self := after 1 sample in
  (_quotes_row self < length (_quotes_df self))%nat /\
  (_trades_row self < length (_trades_df self))%nat /\
  exists q0 t0 d,
    _quotes_df self !! 0%nat = Some q0 /\
    _trades_df self !! 0%nat = Some t0 /\
    get_price_ladder_time_elapsed self = Ok d.
Proof.
  intros self.
  assert (Hq : (_quotes_row self < length (_quotes_df self))%nat)
    by (vm_compute; lia).
  assert (Ht : (_trades_row self < length (_trades_df self))%nat)
    by (vm_compute; lia).
  split; [exact Hq|]. split; [exact Ht|].
  destruct (time_elapsed_is_next_record self Hq Ht)
    as (q0 & t0 & d & Hq0 & Ht0 & Hd & _).
  exists q0, t0, d. auto.
Defined.

(** X9.  On streams in order of time the elapsed time never goes back from
    one call to the next: if [get_price_ladder_time_elapsed] returns [d]
    before a call of [get_next_price_ladder_df] and [d'] after it, and the
    data is not used up after the call, then [d <= d']. *)
Theorem time_elapsed_monotone (self : MarketData)
    (o : outcome (option DataFrame)) (d d' : Z) :
  Sorted quote_le (_quotes_df self) ->
  Sorted trade_le (_trades_df self) ->
  get_next_price_ladder_df self = Ok o ->
  get_price_ladder_time_elapsed self = Ok d ->
  get_price_ladder_time_elapsed (self' o) = Ok d' ->
  ~ at_end (self' o) ->
  (d <= d')%Z.
Proof.
  intros Sq St Ho Hd Hd' Hnot.
  apply time_elapsed_inv in Hd' as [[Hend _]|(q0' & t0' & q' & t' & A0 & B0 & A & B & ->)];
    [contradiction|].
  assert (Hcur : (_quotes_row self <= _quotes_row (self' o))%nat /\
                 (_trades_row self <= _trades_row (self' o))%nat /\
                 _quotes_df (self' o) = _quotes_df self /\
                 _trades_df (self' o) = _trades_df self).
  { pose proof (get_next_streams _ _ Ho) as (Eq & Et & _).
    apply get_next_inv in Ho
      as [[_ ->]|[(_ & u & Hu & ->)|(_ & u & Hu & ->)]]; simpl in *.
    - auto.
    - apply update_trade_cursors in Hu as (t & _ & _ & -> & -> & _).
      repeat split; auto; lia.
    - apply update_quote_cursors in Hu as (q & _ & _ & -> & -> & _).
      repeat split; auto; lia. }
  destruct Hcur as (Hq & Ht & Eq & Et). rewrite Eq in A0, A. rewrite Et in B0, B.
  apply time_elapsed_inv in Hd as [[[Hqe Hte] _]|(q0 & t0 & q & t & C0 & D0 & C & D & ->)].
  - apply lookup_lt_Some in A. lia.
  - assert (q0' = q0) as -> by congruence.
    assert (t0' = t0) as -> by congruence.
    pose proof (sorted_quotes_lookup _ _ _ q q' Sq Hq C A).
    pose proof (sorted_trades_lookup _ _ _ t t' St Ht D B).
    lia.
Qed.

Lemma time_elapsed_monotone_witness :
  let self := after 1 sample in
  let o := {| returned := Some (_price_ladder_df (after 2 sample));
              self' := after 2 sample;
              printed := [TradeLine {| t_time_value := 1; price := 100;
                                       volume := 3 |}] |} in
  get_next_price_ladder_df self = Ok o /\
  get_price_ladder_time_elapsed self = Ok 1%Z /\
  get_price_ladder_time_elapsed (self' o) = Ok 2%Z /\
  (1 <= 2)%Z.
Proof.
  intros self o.
  assert (Ho : get_next_price_ladder_df self = Ok o) by (vm_compute; reflexivity).
  assert (Hd : get_price_ladder_time_elapsed self = Ok 1%Z) by reflexivity.
  assert (Hd' : get_price_ladder_time_elapsed (self' o) = Ok 2%Z) by reflexivity.
  split; [exact Ho|]. split; [exact Hd|]. split; [exact Hd'|].
  apply (time_elapsed_monotone self o 1 2); try assumption.
  - repeat constructor; unfold quote_le; simpl; lia.
  - repeat constructor; unfold trade_le; simpl; lia.
  - intros [Hq _]. vm_compute in Hq. lia.
Defined.

(** ** The cells of a reachable state *)

(** X11.  The size cells always show the latest quote.  In every reachable
    state where a quote has been applied, column 1 of a row holds the bid
    size of the quote applied last if the row's level is close to its bid
    price and is empty otherwise, and column 3 does the same for the ask:
    trades that come in between change neither. *)
Theorem reachable_sizes_are_last_quote (config : Config)
    (quotes_df : list Quote) (trades_df : list Trade) (self : MarketData) :
  reachable (__init__ config quotes_df trades_df) self ->
  (0 < _quotes_row self)%nat ->
  exists q,
    quotes_df !! (_quotes_row self - 1)%nat = Some q /\
    forall i r,
      _price_ladder_df self !! i = Some r ->
      exists level,
        getitem (_price_ladder self) i = Ok level /\
        col1 r = (if isclose level (bid_price q) then str (bid_size q) else "") /\
        col3 r = (if isclose level (ask_price q) then str (ask_size q) else "").
Proof.
  intros Hreach. induction Hreach as [|self o Hreach IH Hstep].
  - simpl. lia.
  - pose proof (reachable_grid_inv _ _ _ _ Hreach) as ([Ec Eq] & Hlen & _).
    pose proof (reachable_grid_inv _ _ _ _ (reach_step _ _ _ Hreach Hstep))
      as (_ & Hlen' & _).
    apply get_next_inv in Hstep
      as [[_ ->]|[(_ & u & Hu & ->)|(_ & u & Hu & ->)]]; simpl in *.
    + exact IH.
    + pose proof (update_trade_rows_back _ _ Hu) as Hback.
      destruct (update_trade_state _ _ Hu) as (El & _ & Eq' & _).
      rewrite Eq', El. intros Hq. destruct (IH Hq) as (q & Hlook & Hrows).
      exists q. split; [exact Hlook|]. intros i r' Hr'.
      destruct (Hback i r' Hr') as (r & Hr & Hcase).
      destruct (Hrows i r Hr) as (level & Hlevel & H1 & H3).
      exists level. split; [exact Hlevel|].
      destruct Hcase as [->|Hcells]; [auto|].
      apply trade_cells_frame in Hcells as (-> & _ & ->). auto.
    + intros _.
      destruct (update_quote_cursors _ _ Hu) as (q & Hq & _ & Eq' & _ & _ & _ & Ec').
      exists q. rewrite Eq'. split.
      * replace (_quotes_row self + 1 - 1)%nat with (_quotes_row self) by lia.
        congruence.
      * intros i r Hr.
        assert (Hi : (i < row_count (_config self))%nat).
        { apply lookup_lt_Some in Hr. rewrite Hlen', <- Ec in Hr. exact Hr. }
        destruct (update_quote_row_cells self u q i Hu Hq Hi)
          as (level & r' & Hlevel & Hr' & H1 & H3).
        exists level. replace r with r' by congruence. auto.
Qed.

Lemma reachable_sizes_are_last_quote_witness :
  let self := after 3 sample in
  reachable sample self /\
  (0 < _quotes_row self)%nat /\
  exists q,
    sample_quotes !! (_quotes_row self - 1)%nat = Some q /\
    forall i r,
      _price_ladder_df self !! i = Some r ->
      exists level,
        getitem (_price_ladder self) i = Ok level /\
        col1 r = (if isclose level (bid_price q) then str (bid_size q) else "") /\
        col3 r = (if isclose level (ask_price q) then str (ask_size q) else "").
Proof.
  intros self.
  assert (Hreach : reachable sample self) by apply after_reachable.
  assert (Hq : (0 < _quotes_row self)%nat) by (vm_compute; lia).
  split; [exact Hreach|]. split; [exact Hq|].
  exact (reachable_sizes_are_last_quote sample_config sample_quotes
           sample_trades self Hreach Hq).
Defined.

(** X12.  In every reachable state each aggregate cell, column 0 or column
    4 of any row, is empty or the decimal numeral [str] writes for some
    integer, so that [int] reads it back; and no cursor is past the end of
    its stream. *)
Theorem reachable_aggregates_are_numerals (config : Config)
    (quotes_df : list Quote) (trades_df : list Trade) (self : MarketData) :
  reachable (__init__ config quotes_df trades_df) self ->
  (forall r, r ∈ _price_ladder_df self ->
     (col0 r = "" \/ exists z, col0 r = str z /\ int (col0 r) = Ok z) /\
     (col4 r = "" \/ exists z, col4 r = str z /\ int (col4 r) = Ok z)) /\
  (_quotes_row self <= length quotes_df)%nat /\
  (_trades_row self <= length trades_df)%nat.
Proof.
  intros Hreach.
  pose proof (reachable_well_formed _ _ _ _ Hreach) as Hwf.
  apply reachable_cursors in Hreach as (_ & Eq & Et & Hq & Ht); simpl; try lia.
  simpl in Eq, Et. rewrite Eq in Hq. rewrite Et in Ht.
  split; [|lia].
  intros r Hr. pose proof (wf_cells _ Hwf) as Hall.
  rewrite Forall_forall in Hall. destruct (Hall r Hr) as [H0 H4].
  split.
  - destruct H0 as [E|[z E]]; [left; exact E|].
    right. exists z. split; [exact E|]. rewrite E. apply int_str.
  - destruct H4 as [E|[z E]]; [left; exact E|].
    right. exists z. split; [exact E|]. rewrite E. apply int_str.
Qed.

Lemma reachable_aggregates_are_numerals_witness :
  let self := after 3 sample in
  reachable sample self /\
  (forall r, r ∈ _price_ladder_df self ->
     (col0 r = "" \/ exists z, col0 r = str z /\ int (col0 r) = Ok z) /\
     (col4 r = "" \/ exists z, col4 r = str z /\ int (col4 r) = Ok z)) /\
  (_quotes_row self <= length sample_quotes)%nat /\
  (_trades_row self <= length sample_trades)%nat.
Proof.
  intros self.
  assert (Hreach : reachable sample self) by apply after_reachable.
  split; [exact Hreach|].
  exact (reachable_aggregates_are_numerals sample_config sample_quotes
           sample_trades self Hreach).
Defined.

(** ** A ladder without rows *)

(** X13.  [row_count] must be at least 1.  With [row_count = 0] the first
    quote leaves an empty ladder, and from then on applying a quote raises
    [IndexError]: the reset test reads the top level of an array that has
    none.  So does the call of [get_next_price_ladder_df] that finds a quote
    next. *)
Theorem no_rows_second_quote_raises (config : Config) (quotes_df : list Quote)
    (trades_df : list Trade) (self : MarketData) :
  row_count config = 0%nat ->
  reachable (__init__ config quotes_df trades_df) self ->
  (0 < _quotes_row self)%nat ->
  (_quotes_row self < length quotes_df)%nat ->
  _price_ladder self = Some [] /\
  _update_quote self = Raise IndexError /\
  (quote_is_next self -> get_next_price_ladder_df self = Raise IndexError).
Proof.
  intros Hrc Hreach Hq Hlt.
  destruct (reachable_grid_inv _ _ _ _ Hreach) as ([Ec Eq] & _ & _ & Hpos).
  destruct (Hpos Hq) as (k & q & _ & _ & Hl & _).
  assert (Hnil : reset_ladder config q = []).
  { apply length_zero_iff_nil. rewrite reset_ladder_length. exact Hrc. }
  rewrite Hnil in Hl.
  assert (Hupd : _update_quote self = Raise IndexError).
  { unfold _update_quote, outside_ladder.
    assert (E0 : (_quotes_row self =? 0)%nat = false) by (apply Nat.eqb_neq; lia).
    rewrite E0, Hl.
    destruct (lookup_lt_is_Some_2 (_quotes_df self) (_quotes_row self))
      as [q' Hq']; [rewrite Eq; exact Hlt|].
    apply loc_Ok in Hq'. rewrite Hq'. reflexivity. }
  split; [exact Hl|]. split; [exact Hupd|].
  intros Hnext. rewrite (get_next_quote _ Hnext), Hupd. reflexivity.
Qed.

Lemma no_rows_second_quote_raises_witness :
  let config := {| row_count := 0; tick_size := 0.01;
                   price_format := fun _ => "px" |} in
  let self := after 1 (__init__ config sample_quotes []) in
  row_count config = 0%nat /\
  reachable (__init__ config sample_quotes []) self /\
  (0 < _quotes_row self)%nat /\
  (_quotes_row self < length sample_quotes)%nat /\
  quote_is_next self /\
  _price_ladder self = Some [] /\
  _update_quote self = Raise IndexError /\
  get_next_price_ladder_df self = Raise IndexError.
Proof.
  intros config self.
  assert (Hrc : row_count config = 0%nat) by reflexivity.
  assert (Hreach : reachable (__init__ config sample_quotes []) self)
    by apply after_reachable.
  assert (Hq : (0 < _quotes_row self)%nat) by (vm_compute; lia).
  assert (Hlt : (_quotes_row self < length sample_quotes)%nat) by (vm_compute; lia).
  assert (Hnext : quote_is_next self).
  { split; [vm_compute; lia|]. left. vm_compute. lia. }
  split; [exact Hrc|]. split; [exact Hreach|]. split; [exact Hq|].
  split; [exact Hlt|]. split; [exact Hnext|].
  destruct (no_rows_second_quote_raises config sample_quotes [] self
              Hrc Hreach Hq Hlt) as (Hl & Hupd & Hget).
  split; [exact Hl|]. split; [exact Hupd|]. exact (Hget Hnext).
Defined.

(** * Properties of the driver *)

Lemma update_logic_inv (pace : pacing) (now : Z) (model : TableModel.t)
    (again : bool) (model' : TableModel.t) :
  TableModel.update_logic pace now model = Ok (again, model') ->
  exists d o,
    get_price_ladder_time_elapsed (TableModel._market_data model) = Ok d /\
    pace now d = Ok tt /\
    get_next_price_ladder_df (TableModel._market_data model) = Ok o /\
    again = match returned o with Some _ => true | None => false end /\
    model' = {| TableModel._market_data := self' o;
                TableModel._price_ladder_df := returned o |}.
Proof.
  unfold TableModel.update_logic. intros H. inv_bind. destruct a0.
  exists a, a1. repeat split; congruence.
Qed.

Lemma time_elapsed_raises (self : MarketData) (e : exn) :
  get_price_ladder_time_elapsed self = Raise e -> e = KeyError.
Proof.
  unfold get_price_ladder_time_elapsed, loc.
  destruct (past_end _ _ && past_end _ _); [discriminate|].
  destruct (_quotes_df self !! 0%nat); simpl; [|congruence].
  destruct (_trades_df self !! 0%nat); simpl; [|congruence].
  destruct (_quotes_df self !! _quotes_row self); simpl; [|congruence].
  destruct (_trades_df self !! _trades_row self); simpl; congruence.
Qed.

(** A call of [update_logic] that returns, on data not yet used up, has
    found a record left in both streams and has applied one of them. *)
Lemma update_logic_step (pace : pacing) (now : Z) (model : TableModel.t)
    (again : bool) (model' : TableModel.t) :
  let self := TableModel._market_data model in
  let self_1 := TableModel._market_data model' in
  (_quotes_row self <= length (_quotes_df self))%nat ->
  (_trades_row self <= length (_trades_df self))%nat ->
  (_quotes_row self + _trades_row self
   < length (_quotes_df self) + length (_trades_df self))%nat ->
  TableModel.update_logic pace now model = Ok (again, model') ->
  again = true /\
  _quotes_df self_1 = _quotes_df self /\
  _trades_df self_1 = _trades_df self /\
  _config self_1 = _config self /\
  (_quotes_row self_1 <= length (_quotes_df self))%nat /\
  (_trades_row self_1 <= length (_trades_df self))%nat /\
  (_quotes_row self_1 + _trades_row self_1
   = _quotes_row self + _trades_row self + 1)%nat /\
  (_quotes_row self_1 + _trades_row self_1
   < length (_quotes_df self) + length (_trades_df self))%nat /\
  (well_formed self -> well_formed self_1).
Proof.
  intros self self_1 Hq Ht Hsum H. subst self self_1.
  apply update_logic_inv in H as (d & o & Hd & _ & Ho & -> & ->). simpl.
  apply time_elapsed_inv in Hd
    as [[[Hqe Hte] _]|(q0 & t0 & q & t & _ & _ & Hq' & Ht' & _)]; [lia|].
  apply lookup_lt_Some in Hq', Ht'.
  pose proof (get_next_streams _ _ Ho) as (Eq & Et & Ec).
  pose proof (fun Hwf => get_next_well_formed _ o Hwf Ho) as Hwf.
  apply get_next_inv in Ho
    as [[[Hqe Hte] _]|[(_ & u & Hu & ->)|(_ & u & Hu & ->)]]; simpl in *; [lia| |].
  - apply update_trade_cursors in Hu as (t1 & _ & _ & -> & -> & _).
    repeat (split; [solve [auto | lia]|]). exact Hwf.
  - apply update_quote_cursors in Hu as (q1 & _ & _ & -> & -> & _).
    repeat (split; [solve [auto | lia]|]). exact Hwf.
Qed.

Lemma run_unfinished (pace : pacing) (clock : list Z) :
  forall (model : TableModel.t) (finished : bool) (model' : TableModel.t),
    let self := TableModel._market_data model in
    let self_n := TableModel._market_data model' in
    (_quotes_row self <= length (_quotes_df self))%nat ->
    (_trades_row self <= length (_trades_df self))%nat ->
    (_quotes_row self + _trades_row self
     < length (_quotes_df self) + length (_trades_df self))%nat ->
    Worker.run pace clock model = Ok (finished, model') ->
    finished = false /\
    _quotes_df self_n = _quotes_df self /\
    _trades_df self_n = _trades_df self /\
    (_quotes_row self_n + _trades_row self_n
     = _quotes_row self + _trades_row self + length clock)%nat /\
    (_quotes_row self_n + _trades_row self_n
     < length (_quotes_df self) + length (_trades_df self))%nat.
Proof.
  induction clock as [|now later IH]; intros model finished model' self self_n
    Hq Ht Hsum H; subst self self_n; simpl in H.
  - injection H as <- <-. repeat split; auto; simpl; lia.
  - inv_bind. destruct a as [again model1]. simpl in H.
    destruct (update_logic_step pace now model again model1 Hq Ht Hsum Ha)
      as (-> & Eq & Et & _ & Hq1 & Ht1 & Hone & Hsum1 & _).
    rewrite <- Eq in Hq1, Hsum1. rewrite <- Et in Ht1, Hsum1.
    destruct (IH model1 finished model' Hq1 Ht1 Hsum1 H)
      as (-> & Eq' & Et' & Hn & Hsum').
    rewrite Eq, Et in *. repeat split; auto; simpl; lia.
Qed.

(** With a pacing that does not raise, on a well-formed object with at
    least one row, the only exception of the loop is [KeyError]. *)
Lemma run_raises (pace : pacing) (clock : list Z) :
  (forall now d, pace now d = Ok tt) ->
  forall (model : TableModel.t) (e : exn),
    let self := TableModel._market_data model in
    well_formed self ->
    (1 <= row_count (_config self))%nat ->
    (_quotes_row self + _trades_row self
     < length (_quotes_df self) + length (_trades_df self))%nat ->
    Worker.run pace clock model = Raise e ->
    e = KeyError.
Proof.
  intros Hpace. induction clock as [|now later IH];
    intros model e self Hwf Hrc Hsum H; subst self; simpl in H; [discriminate|].
  destruct (TableModel.update_logic pace now model) as [[again model1]|e1] eqn:Hstep.
  - simpl in H.
    destruct (update_logic_step pace now model again model1
                (wf_quotes _ Hwf) (wf_trades _ Hwf) Hsum Hstep)
      as (-> & Eq & Et & Ec & _ & _ & _ & Hsum1 & Hwf1).
    apply (IH model1 e); [apply Hwf1, Hwf | rewrite Ec; exact Hrc | | exact H].
    rewrite Eq, Et. exact Hsum1.
  - simpl in H. injection H as <-.
    unfold TableModel.update_logic in Hstep.
    destruct (get_price_ladder_time_elapsed (TableModel._market_data model))
      as [d|e0] eqn:Hd; simpl in Hstep.
    + rewrite Hpace in Hstep. simpl in Hstep.
      destruct (get_next_total _ Hwf Hrc) as (o & Ho & _).
      rewrite Ho in Hstep. discriminate.
    + injection Hstep as <-. eapply time_elapsed_raises, Hd.
Qed.

(** X10.  The driver never shows the last record.  [update_logic] asks
    [get_price_ladder_time_elapsed] for the time of the next update before
    it steps the engine, and that call raises [KeyError] as soon as one of
    the two streams is used up.  So on data with at least one record,
    however the pacing behaves: the loop of [Worker.run] never ends by
    [update_logic] returning [False]; whenever it is still running, some
    record has not been applied; and with as many clock readings as there
    are records it has raised.  If the pacing never raises and there is at
    least one row, the exception is [KeyError]. *)
Theorem worker_stops_before_last_record (pace : pacing) (config : Config)
    (quotes_df : list Quote) (trades_df : list Trade) (clock : list Z) :
  (1 <= length quotes_df + length trades_df)%nat ->
  let model := TableModel.__init__ (__init__ config quotes_df trades_df) in
  (forall finished model',
     Worker.run pace clock model = Ok (finished, model') ->
     finished = false /\
     (_quotes_row (TableModel._market_data model')
      + _trades_row (TableModel._market_data model')
      < length quotes_df + length trades_df)%nat) /\
  ((length quotes_df + length trades_df <= length clock)%nat ->
   exists e, Worker.run pace clock model = Raise e) /\
  ((forall now d, pace now d = Ok tt) ->
   (1 <= row_count config)%nat ->
   (length quotes_df + length trades_df <= length clock)%nat ->
   Worker.run pace clock model = Raise KeyError).
Proof.
  intros Hdata model.
  assert (Hrun : forall finished model',
    Worker.run pace clock model = Ok (finished, model') ->
    finished = false /\
    (_quotes_row (TableModel._market_data model')
     + _trades_row (TableModel._market_data model')
     = length clock)%nat /\
    (_quotes_row (TableModel._market_data model')
     + _trades_row (TableModel._market_data model')
     < length quotes_df + length trades_df)%nat).
  { intros finished model' H.
    apply run_unfinished in H as (-> & _ & _ & Hn & Hsum); simpl in *; lia. }
  assert (Hraise : (length quotes_df + length trades_df <= length clock)%nat ->
                   exists e, Worker.run pace clock model = Raise e).
  { intros Hclock. destruct (Worker.run pace clock model) as [[fin m]|e] eqn:H.
    - destruct (Hrun fin m eq_refl) as (_ & Hn & Hsum). lia.
    - eauto. }
  split; [|split].
  - intros finished model' H. destruct (Hrun finished model' H) as (-> & _ & Hsum).
    auto.
  - exact Hraise.
  - intros Hpace Hrc Hclock. destruct (Hraise Hclock) as [e He].
    rewrite He. f_equal.
    apply (run_raises pace clock Hpace model e); simpl;
      [apply well_formed_init | exact Hrc | lia | exact He].
Qed.

Lemma worker_stops_before_last_record_witness :
  (1 <= length sample_quotes + length sample_trades)%nat /\
  (forall now d, no_wait now d = Ok tt) /\
  (1 <= row_count sample_config)%nat /\
  (length sample_quotes + length sample_trades <= length [0; 0; 0; 0; 0]%Z)%nat /\
  Worker.run no_wait [0; 0; 0; 0; 0]%Z (TableModel.__init__ sample)
  = Raise KeyError.
Proof.
  assert (Hdata : (1 <= length sample_quotes + length sample_trades)%nat)
    by (simpl; lia).
  assert (Hpace : forall now d, no_wait now d = Ok tt) by reflexivity.
  assert (Hrc : (1 <= row_count sample_config)%nat) by (simpl; lia).
  assert (Hclock : (length sample_quotes + length sample_trades
                    <= length [0; 0; 0; 0; 0]%Z)%nat) by (simpl; lia).
  split; [exact Hdata|]. split; [exact Hpace|]. split; [exact Hrc|].
  split; [exact Hclock|].
  destruct (worker_stops_before_last_record no_wait sample_config sample_quotes
              sample_trades [0; 0; 0; 0; 0]%Z Hdata) as (_ & _ & Hkey).
  exact (Hkey Hpace Hrc Hclock).
Defined.
